(** * ScrollMarks: the position-to-gradient pipeline and the instance lifecycle

    A shallow embedding of [src/scroll-marks.js] (class [ScrollMarks] with its
    helpers [debounce] and [generateId]) and the properties its specification
    states about it.

    Conventions of the embedding.
    - A JavaScript number is an exact rational ([Q]): the arithmetic of the
      pipeline ([+], [/], [*], [Math.max], [Math.min], comparisons) is
      modelled without rounding, and [NaN] and the infinities, which DOM
      geometry never yields, are left out.
    - A string is a [string] holding the UTF-8 bytes of the JavaScript
      string; [null] and [undefined] are [None].
    - The DOM is read through a snapshot ([Dom.t]) handed to every operation
      that reads it; the objects the instance mutates (its private state, the
      style elements under [document.head], the animation-frame queue and the
      variable captured by [debounce]) live in an explicit [World.t].
    - A method that can raise returns [Throw]; state is threaded by the monad
      [M]. The exceptions modelled are those of the library's own code; the
      ones the DOM raises on a page it cannot serve (a selector that does
      not parse, a document without [body] or [head]) are outside the
      snapshot, which answers every query. *)

From Stdlib Require Import QArith Qminmax Qround Qabs ZArith List String Ascii Bool.
From Stdlib Require Import Lia Lqa Sorted Permutation DecimalString.
Import ListNotations.

Local Open Scope string_scope.
Local Open Scope Q_scope.

(* ================================================================= *)
(** * JavaScript primitives *)

Module Js.

(** [x < y], [x > y] and [x <= y] on numbers. *)
Definition lt (x y : Q) : bool :=
  match x ?= y with Lt => true | _ => false end.
Definition gt (x y : Q) : bool := lt y x.
Definition le (x y : Q) : bool := negb (lt y x).

(** Truthiness, as [!v] and [v || d] use it. *)
Class Truthy (A : Type) := truthy : A -> bool.

#[global] Instance truthy_string : Truthy string :=
  fun s => match s with EmptyString => false | String _ _ => true end.
#[global] Instance truthy_number : Truthy Q :=
  fun x => negb (Qeq_bool x 0).
(** An object reference is always truthy. *)
#[global] Instance truthy_object : Truthy nat := fun _ => true.
#[global] Instance truthy_option {A} `{Truthy A} : Truthy (option A) :=
  fun v => match v with Some x => truthy x | None => false end.

(** [v || d] where [v] may be [undefined]. *)
Definition or_else {A} `{Truthy A} (v : option A) (d : A) : A :=
  match v with
  | Some x => if truthy x then x else d
  | None => d
  end.

(** A string holds the UTF-8 bytes of the JavaScript string. White space
    ([WhiteSpace] and [LineTerminator] of ECMAScript) is given by the bytes
    of its encoding: U+0009 to U+000D and U+0020; U+00A0; U+1680, U+2000 to
    U+200A, U+2028, U+2029, U+202F, U+205F, U+3000 and U+FEFF. *)
Definition white_space_1 (a : nat) : bool :=
  match a with
  | 9%nat | 10%nat | 11%nat | 12%nat | 13%nat | 32%nat => true
  | _ => false
  end.

Definition white_space_2 (a b : nat) : bool := ((a =? 194) && (b =? 160))%nat.

Definition white_space_3 (a b c : nat) : bool :=
  (((a =? 225) && (b =? 154) && (c =? 128))
   || ((a =? 226) && (b =? 128)
       && (((128 <=? c) && (c <=? 138)) || (c =? 168) || (c =? 169)
           || (c =? 175)))
   || ((a =? 226) && (b =? 129) && (c =? 159))
   || ((a =? 227) && (b =? 128) && (c =? 128))
   || ((a =? 239) && (b =? 187) && (c =? 191)))%nat.

(** The same tests on a text read from its end when [backwards]. *)
Definition ws1 (a : ascii) : bool := white_space_1 (nat_of_ascii a).

Definition ws2 (backwards : bool) (a b : ascii) : bool :=
  if backwards then white_space_2 (nat_of_ascii b) (nat_of_ascii a)
  else white_space_2 (nat_of_ascii a) (nat_of_ascii b).

Definition ws3 (backwards : bool) (a b c : ascii) : bool :=
  if backwards
  then white_space_3 (nat_of_ascii c) (nat_of_ascii b) (nat_of_ascii a)
  else white_space_3 (nat_of_ascii a) (nat_of_ascii b) (nat_of_ascii c).

(** Whether a text begins with a white-space character. *)
Definition begins_with_white_space (backwards : bool) (l : list ascii) : bool :=
  match l with
  | [] => false
  | a :: l1 =>
      ws1 a
      || match l1 with
         | [] => false
         | b :: l2 =>
             ws2 backwards a b
             || match l2 with
                | [] => false
                | c :: _ => ws3 backwards a b c
                end
         end
  end.

(** The text without the white space it begins with. *)
Fixpoint strip (backwards : bool) (l : list ascii) : list ascii :=
  match l with
  | [] => []
  | a :: l1 =>
      if ws1 a then strip backwards l1
      else
        match l1 with
        | [] => l
        | b :: l2 =>
            if ws2 backwards a b then strip backwards l2
            else
              match l2 with
              | [] => l
              | c :: l3 =>
                  if ws3 backwards a b c then strip backwards l3 else l
              end
        end
  end.

Definition trimStart_chars (l : list ascii) : list ascii := strip false l.

(** [String.prototype.trim]. *)
Definition trim (s : string) : string :=
  string_of_list_ascii
    (rev (strip true (rev (strip false (list_ascii_of_string s))))).

(** [name] in ASCII lower case, as [getAttribute] matches it on an HTML
    element. *)
Definition lower (c : ascii) : ascii :=
  let n := nat_of_ascii c in
  if ((65 <=? n) && (n <=? 90))%nat then ascii_of_nat (n + 32) else c.

Definition ascii_lowercase (s : string) : string :=
  string_of_list_ascii (map lower (list_ascii_of_string s)).

(** Decimal digits of an integer. *)
Definition Z_toString (z : Z) : string := NilZero.string_of_int (Z.to_int z).

Definition digit_char (d : Z) : ascii := ascii_of_nat (48 + Z.to_nat d).

(** The digits of the fraction [r / d], until it ends or [fuel] runs out,
    and the number of zeros it begins with. *)
Fixpoint fraction_digits (fuel : nat) (r d : Z) : string :=
  match fuel with
  | O => ""
  | S fuel' =>
      if (r =? 0)%Z then ""
      else String (digit_char (10 * r / d))
             (fraction_digits fuel' ((10 * r) mod d) d)
  end.

Fixpoint leading_zeros (fuel : nat) (r d : Z) : nat :=
  match fuel with
  | O => O
  | S fuel' =>
      if (10 * r <? d)%Z then S (leading_zeros fuel' (10 * r) d) else O
  end.

Fixpoint drop_zeros (l : list ascii) : list ascii :=
  match l with
  | c :: l' => if Ascii.eqb c "0" then drop_zeros l' else l
  | [] => []
  end.

(** [d.ddd] from the digits [ds], without the zeros they end with. *)
Definition mantissa (ds : string) : string :=
  match string_of_list_ascii (rev (drop_zeros (rev (list_ascii_of_string ds)))) with
  | String c EmptyString => String c ""
  | String c rest => String c ("." ++ rest)
  | EmptyString => "0"
  end.

(** [Number::toString] of a finite number, as a template literal applies
    it. The digits are those of the exact decimal expansion, cut after 17
    digits of the fraction (after 17 digits from the first one that is not
    zero, below 1; before the fraction, from 1e21 on); the layout is the
    one of ECMAScript: plain digits from 1e-6 up to 1e21, exponent form
    outside. *)
Definition Number_toString (x : Q) : string :=
  let neg := lt x 0 in
  let a := if neg then - x else x in
  let n := Qnum a in
  let d := Zpos (Qden a) in
  let ip := (n / d)%Z in
  let r := (n mod d)%Z in
  (if neg then "-" else "")
    ++ (if (10 ^ 21 <=? ip)%Z then
          mantissa (Z_toString ip) ++ "e+"
            ++ Z_toString (Z.of_nat (String.length (Z_toString ip)) - 1)
        else if (0 <? ip)%Z then
          Z_toString ip
            ++ (if (r =? 0)%Z then "" else "." ++ fraction_digits 17 r d)
        else if (r =? 0)%Z then "0"
        else
          let z := leading_zeros (S (Z.to_nat (Z.log2 d))) r d in
          let ds := fraction_digits (z + 17) r d in
          if (z <=? 5)%nat then "0." ++ ds
          else
            mantissa (string_of_list_ascii (drop_zeros (list_ascii_of_string ds)))
              ++ "e-" ++ Z_toString (Z.of_nat z + 1)).

(** [Number.prototype.toFixed(2)]: the sign is taken off first; from 1e21
    on the answer is that of [toString]; below, the integer [n] nearest to
    [100 x] (the larger one on a tie) is printed with two fraction
    digits. *)
Definition toFixed2 (x : Q) : string :=
  let neg := lt x 0 in
  let a := if neg then - x else x in
  let n := Qfloor (a * 100 + (1 # 2)) in
  (if neg then "-" else "")
    ++ (if le (inject_Z (10 ^ 21)) a then Number_toString a
        else
          Z_toString (n / 100) ++ "."
            ++ String (digit_char ((n mod 100) / 10))
                 (String (digit_char (n mod 10)) "")).

(** [Array.prototype.join]. *)
Fixpoint join (sep : string) (l : list string) : string :=
  match l with
  | [] => ""
  | [s] => s
  | s :: l' => s ++ sep ++ join sep l'
  end.

(** [Array.prototype.sort(compareFn)]: a stable sort (ECMAScript 2019),
    here by insertion; [x] goes after [y] exactly when
    [compareFn x y > 0]. *)
Section Sort.
Context {A : Type} (compareFn : A -> A -> Q).

Fixpoint insert (x : A) (l : list A) : list A :=
  match l with
  | [] => [x]
  | y :: l' =>
      if gt (compareFn x y) 0 then y :: insert x l' else x :: y :: l'
  end.

Fixpoint sort (l : list A) : list A :=
  match l with
  | [] => []
  | x :: l' => insert x (sort l')
  end.
End Sort.

(** [array.forEach(f)] where [f] pushes at most one value to an array that
    starts empty. *)
Definition forEach_push {A B} (f : A -> option B) (l : list A) : list B :=
  fold_left
    (fun acc a => match f a with Some b => (acc ++ [b])%list | None => acc end)
    l [].

End Js.

Notation "v '|||' d" := (Js.or_else v d) (at level 50, left associativity).

Definition nl : string := String (ascii_of_nat 10) "".

(* ================================================================= *)
(** * The DOM snapshot *)

Record DOMRect := { rect_top : Q; rect_height : Q }.

Module Element.
Record t := {
  getBoundingClientRect : DOMRect;
  attributes : list (string * string)
}.

(** The value of the first attribute called [name], [null] when there is
    none. *)
Fixpoint lookup (name : string) (l : list (string * string)) : option string :=
  match l with
  | [] => None
  | (k, v) :: l' => if String.eqb k name then Some v else lookup name l'
  end.

(** [el.getAttribute(name)] on an HTML element: the name is matched in
    ASCII lower case against the names the element stores. *)
Definition getAttribute (el : t) (name : string) : option string :=
  lookup (Js.ascii_lowercase name) (attributes el).
End Element.

Module Dom.
Record t := {
  (** [document.querySelectorAll(selector)], in document order, for the
      selectors that parse *)
  querySelectorAll : string -> list Element.t;
  body_scrollHeight : Q;
  documentElement_scrollHeight : Q;
  documentElement_scrollTop : Q;
  pageYOffset : Q;
  innerHeight : Q
}.
End Dom.

(* ================================================================= *)
(** * Data model *)

Module ColorMark.
Record t := { start : Q; end_ : Q; color : string }.
End ColorMark.

Inductive Container := documentElement | element (ref : nat).

#[global] Instance truthy_container : Js.Truthy Container := fun _ => true.

(** [ScrollMarksOptions]: every property is optional. *)
Module Options.
Record t := {
  container : option Container;
  trackColor : option string;
  thumbColor : option string;
  selector : option string;
  attributeName : option string;
  scrollbarWidth : option Q
}.

(** [{}], the default of the constructor's parameter. *)
Definition empty : t :=
  {| container := None; trackColor := None; thumbColor := None;
     selector := None; attributeName := None; scrollbarWidth := None |}.
End Options.

Module Config.
Record t := {
  container : Container;
  trackColor : string;
  thumbColor : string;
  selector : string;
  attributeName : string;
  scrollbarWidth : Q
}.
End Config.

(** The [config] literal of the constructor. *)
Definition make_config (options : Options.t) : Config.t :=
  {| Config.container := Options.container options ||| documentElement;
     Config.trackColor := Options.trackColor options ||| "#1a1a2e";
     Config.thumbColor := Options.thumbColor options ||| "rgba(255,255,255,0.3)";
     Config.selector := Options.selector options ||| "[data-scroll-color]";
     Config.attributeName := Options.attributeName options ||| "data-scroll-color";
     Config.scrollbarWidth := Options.scrollbarWidth options ||| 14 |}.

(* ================================================================= *)
(** * Geometry and the mark collector (the body of [_collectMarks]) *)

Definition _getScrollHeight (dom : Dom.t) : Q :=
  Qmax (Dom.body_scrollHeight dom) (Dom.documentElement_scrollHeight dom).

Definition _getViewportHeight (dom : Dom.t) : Q := Dom.innerHeight dom.

(** The callback of [elements.forEach]: the mark it pushes, if any. *)
Definition collect_element (config : Config.t) (dom : Dom.t) (totalHeight : Q)
    (el : Element.t) : option ColorMark.t :=
  let rect := Element.getBoundingClientRect el in
  let scrollTop :=
    Some (Dom.pageYOffset dom) ||| Dom.documentElement_scrollTop dom in
  let top := rect_top rect + scrollTop in
  let height := rect_height rect in
  let color := Element.getAttribute el (Config.attributeName config) in
  if negb (Js.truthy color) then None
  else
    match color with
    | None => None
    | Some color =>
        let startPercent := Qmax 0 ((top / totalHeight) * 100) in
        let endPercent := Qmin 100 (((top + height) / totalHeight) * 100) in
        if Js.lt startPercent endPercent then
          Some {| ColorMark.start := startPercent;
                  ColorMark.end_ := endPercent;
                  ColorMark.color := Js.trim color |}
        else None
    end.

(** The marks in discovery order, before [marks.sort]. *)
Definition discovered_marks (config : Config.t) (dom : Dom.t) : list ColorMark.t :=
  let elements := Dom.querySelectorAll dom (Config.selector config) in
  let totalHeight := _getScrollHeight dom in
  if Js.le totalHeight 0 then []
  else Js.forEach_push (collect_element config dom totalHeight) elements.

Definition by_start (a b : ColorMark.t) : Q :=
  ColorMark.start a - ColorMark.start b.

Definition collectMarks (config : Config.t) (dom : Dom.t) : list ColorMark.t :=
  Js.sort by_start (discovered_marks config dom).

(* ================================================================= *)
(** * The gradient builder (the body of [_buildGradient]) *)

(** A color stop: its color and its position, which the code prints either
    with [toFixed(2)] or as the literal [100%]. *)
Inductive Position := Fixed2 (x : Q) | Hundred.

Record Stop := { stop_color : string; stop_at : Position }.


Definition position_text (p : Position) : string :=
  match p with Fixed2 x => Js.toFixed2 x ++ "%" | Hundred => "100%" end.

Definition stop_text (s : Stop) : string :=
  stop_color s ++ " " ++ position_text (stop_at s).

(** The [for (const mark of marks)] loop: the stops pushed and the final
    [lastEnd]. *)
Fixpoint mark_stops (trackColor : string) (lastEnd : Q)
    (marks : list ColorMark.t) : list Stop * Q :=
  match marks with
  | [] => ([], lastEnd)
  | mark :: marks' =>
      let gap :=
        if Js.gt (ColorMark.start mark) (lastEnd + (1 # 100)) then
          [ {| stop_color := trackColor; stop_at := Fixed2 lastEnd |};
            {| stop_color := trackColor;
               stop_at := Fixed2 (ColorMark.start mark) |} ]
        else [] in
      let own :=
        [ {| stop_color := ColorMark.color mark;
             stop_at := Fixed2 (ColorMark.start mark) |};
          {| stop_color := ColorMark.color mark;
             stop_at := Fixed2 (ColorMark.end_ mark) |} ] in
      let '(rest, lastEnd') :=
        mark_stops trackColor (ColorMark.end_ mark) marks' in
      ((gap ++ own ++ rest)%list, lastEnd')
  end.

(** The stops pushed after the loop, [if (lastEnd < 99.99)]. *)
Definition closing_stops (trackColor : string) (lastEnd : Q) : list Stop :=
  if Js.lt lastEnd (9999 # 100) then
    [ {| stop_color := trackColor; stop_at := Fixed2 lastEnd |};
      {| stop_color := trackColor; stop_at := Hundred |} ]
  else [].

(** The array [stops] when the loop and the closing test are done. *)
Definition gradient_stops (trackColor : string) (marks : list ColorMark.t)
    : list Stop :=
  let '(stops, lastEnd) := mark_stops trackColor 0 marks in
  (stops ++ closing_stops trackColor lastEnd)%list.

Definition buildGradient (config : Config.t) (marks : list ColorMark.t) : string :=
  match marks with
  | [] => Config.trackColor config
  | _ :: _ =>
      "linear-gradient(to bottom, "
        ++ Js.join ", " (map stop_text (gradient_stops (Config.trackColor config) marks))
        ++ ")"
  end.

(** The stops come in pairs; each pair is one hard-edged band. *)
Record Segment := { seg_color : string; seg_from : Position; seg_to : Position }.

Fixpoint segments (stops : list Stop) : list Segment :=
  match stops with
  | a :: b :: rest =>
      {| seg_color := stop_color a; seg_from := stop_at a; seg_to := stop_at b |}
        :: segments rest
  | _ => []
  end.

(* ================================================================= *)
(** * The render sink (the template of [_applyStyles]) *)

Definition style_text (config : Config.t) (gradient : string) : string :=
  let w := Config.scrollbarWidth config in
  nl ++ "::-webkit-scrollbar {" ++ nl
  ++ "  width: " ++ Js.Number_toString w ++ "px;" ++ nl
  ++ "}" ++ nl
  ++ "::-webkit-scrollbar-track {" ++ nl
  ++ "  background: " ++ gradient ++ ";" ++ nl
  ++ "}" ++ nl
  ++ "::-webkit-scrollbar-thumb {" ++ nl
  ++ "  background: " ++ Config.thumbColor config ++ ";" ++ nl
  ++ "  border-radius: " ++ Js.Z_toString (Qfloor (w / 2)) ++ "px;" ++ nl
  ++ "}" ++ nl
  ++ "::-webkit-scrollbar-thumb:hover {" ++ nl
  ++ "  background: rgba(255, 255, 255, 0.5);" ++ nl
  ++ "}".

(* ================================================================= *)
(** * The objects the instance mutates *)

(** The function [debounce(() => this.update())] returns. *)
Inductive Closure := debounced_update.

Definition same_closure (f g : Closure) : bool :=
  match f, g with debounced_update, debounced_update => true end.

Module StyleElement.
Record t := {
  node : nat;
  id : string;
  attributes : list (string * string);
  textContent : string
}.

Definition set_id (v : string) (e : t) : t :=
  {| node := node e; id := v; attributes := attributes e;
     textContent := textContent e |}.
Definition setAttribute (k v : string) (e : t) : t :=
  {| node := node e; id := id e; attributes := (k, v) :: attributes e;
     textContent := textContent e |}.
Definition set_textContent (v : string) (e : t) : t :=
  {| node := node e; id := id e; attributes := attributes e;
     textContent := v |}.
End StyleElement.

(** The [state] literal of the constructor. An element or an observer is held
    by reference: the style element by its node, a [ResizeObserver] by the
    targets it observes, a [MutationObserver] by whether it is connected. *)
Module State.
Record t := {
  id : string;
  styleElement : option nat;
  resizeObserver : option (list Element.t);
  mutationObserver : option bool;
  isDestroyed : bool;
  boundUpdate : option Closure;
  marks : list ColorMark.t
}.

Definition set_styleElement v s :=
  {| id := id s; styleElement := v; resizeObserver := resizeObserver s;
     mutationObserver := mutationObserver s; isDestroyed := isDestroyed s;
     boundUpdate := boundUpdate s; marks := marks s |}.
Definition set_resizeObserver v s :=
  {| id := id s; styleElement := styleElement s; resizeObserver := v;
     mutationObserver := mutationObserver s; isDestroyed := isDestroyed s;
     boundUpdate := boundUpdate s; marks := marks s |}.
Definition set_mutationObserver v s :=
  {| id := id s; styleElement := styleElement s;
     resizeObserver := resizeObserver s; mutationObserver := v;
     isDestroyed := isDestroyed s; boundUpdate := boundUpdate s;
     marks := marks s |}.
Definition set_isDestroyed v s :=
  {| id := id s; styleElement := styleElement s;
     resizeObserver := resizeObserver s;
     mutationObserver := mutationObserver s; isDestroyed := v;
     boundUpdate := boundUpdate s; marks := marks s |}.
Definition set_boundUpdate v s :=
  {| id := id s; styleElement := styleElement s;
     resizeObserver := resizeObserver s;
     mutationObserver := mutationObserver s; isDestroyed := isDestroyed s;
     boundUpdate := v; marks := marks s |}.
Definition set_marks v s :=
  {| id := id s; styleElement := styleElement s;
     resizeObserver := resizeObserver s;
     mutationObserver := mutationObserver s; isDestroyed := isDestroyed s;
     boundUpdate := boundUpdate s; marks := v |}.
End State.

(** What [typeof ResizeObserver] and [typeof MutationObserver] find. *)
Record Platform := { has_ResizeObserver : bool; has_MutationObserver : bool }.

Module World.
Record t := {
  (** the entry of [this] in the [privateData] WeakMap *)
  privateData : option (Config.t * State.t);
  (** the style elements created so far, and the children of
      [document.head] among them *)
  elements : list StyleElement.t;
  head : list nat;
  next_node : nat;
  (** the variable [timeoutId] captured by the debounced function *)
  timeoutId : option nat;
  (** the handles of the animation-frame callbacks not yet run; each one is
      the arrow function of [debounce] *)
  animationFrames : list nat;
  next_handle : nat;
  (** the [resize] listeners of [window] *)
  resizeListeners : list Closure;
  platform : Platform
}.

Definition set_privateData v w :=
  {| privateData := v; elements := elements w; head := head w;
     next_node := next_node w; timeoutId := timeoutId w;
     animationFrames := animationFrames w; next_handle := next_handle w;
     resizeListeners := resizeListeners w; platform := platform w |}.
Definition set_elements v w :=
  {| privateData := privateData w; elements := v; head := head w;
     next_node := next_node w; timeoutId := timeoutId w;
     animationFrames := animationFrames w; next_handle := next_handle w;
     resizeListeners := resizeListeners w; platform := platform w |}.
Definition set_head v w :=
  {| privateData := privateData w; elements := elements w; head := v;
     next_node := next_node w; timeoutId := timeoutId w;
     animationFrames := animationFrames w; next_handle := next_handle w;
     resizeListeners := resizeListeners w; platform := platform w |}.
Definition set_next_node v w :=
  {| privateData := privateData w; elements := elements w; head := head w;
     next_node := v; timeoutId := timeoutId w;
     animationFrames := animationFrames w; next_handle := next_handle w;
     resizeListeners := resizeListeners w; platform := platform w |}.
Definition set_timeoutId v w :=
  {| privateData := privateData w; elements := elements w; head := head w;
     next_node := next_node w; timeoutId := v;
     animationFrames := animationFrames w; next_handle := next_handle w;
     resizeListeners := resizeListeners w; platform := platform w |}.
Definition set_animationFrames v w :=
  {| privateData := privateData w; elements := elements w; head := head w;
     next_node := next_node w; timeoutId := timeoutId w;
     animationFrames := v; next_handle := next_handle w;
     resizeListeners := resizeListeners w; platform := platform w |}.
Definition set_next_handle v w :=
  {| privateData := privateData w; elements := elements w; head := head w;
     next_node := next_node w; timeoutId := timeoutId w;
     animationFrames := animationFrames w; next_handle := v;
     resizeListeners := resizeListeners w; platform := platform w |}.
Definition set_resizeListeners v w :=
  {| privateData := privateData w; elements := elements w; head := head w;
     next_node := next_node w; timeoutId := timeoutId w;
     animationFrames := animationFrames w; next_handle := next_handle w;
     resizeListeners := v; platform := platform w |}.

(** A page before any instance exists; handles of
    [requestAnimationFrame] are non-zero. *)
Definition initial (p : Platform) : t :=
  {| privateData := None; elements := []; head := []; next_node := 0%nat;
     timeoutId := None; animationFrames := []; next_handle := 1%nat;
     resizeListeners := []; platform := p |}.

(** The style elements of the document, in order. *)
Definition document_styles (w : t) : list StyleElement.t :=
  flat_map
    (fun n => filter (fun e => Nat.eqb (StyleElement.node e) n) (elements w))
    (head w).

(** [document.getElementById(id)] among the style elements. *)
Definition getElementById (id : string) (w : t) : option StyleElement.t :=
  find (fun e => String.eqb (StyleElement.id e) id) (document_styles w).
End World.

(* ================================================================= *)
(** * The state-and-exception monad of the methods *)

Inductive JsError := TypeError.

Inductive Result (A : Type) :=
| Ok (a : A) (w : World.t)
| Throw (e : JsError).
Arguments Ok {A} a w.
Arguments Throw {A} e.

Definition M (A : Type) := World.t -> Result A.

Definition ret {A} (a : A) : M A := fun w => Ok a w.
Definition throw {A} (e : JsError) : M A := fun _ => Throw e.
Definition bind {A B} (c : M A) (k : A -> M B) : M B :=
  fun w => match c w with Ok a w' => k a w' | Throw e => Throw e end.
Definition gets {A} (f : World.t -> A) : M A := fun w => Ok (f w) w.
Definition modify (f : World.t -> World.t) : M unit := fun w => Ok tt (f w).

Declare Scope js_scope.
Delimit Scope js_scope with js.
Notation "x <- c1 ;; c2" := (bind c1 (fun x => c2))
  (at level 61, c1 at next level, right associativity) : js_scope.
Notation "' pat <- c1 ;; c2" :=
  (bind c1 (fun x => match x with pat => c2 end))
  (at level 61, pat pattern, c1 at next level, right associativity) : js_scope.
Notation "c1 ;; c2" := (bind c1 (fun _ => c2))
  (at level 61, right associativity) : js_scope.
Local Open Scope js_scope.

Definition when (b : bool) (c : M unit) : M unit := if b then c else ret tt.

Fixpoint forEach {A} (f : A -> M unit) (l : list A) : M unit :=
  match l with
  | [] => ret tt
  | a :: l' => f a ;; forEach f l'
  end.

(** [const { config, state } = privateData.get(this)]: destructuring
    [undefined] raises a [TypeError]. *)
Definition destructure_privateData : M (Config.t * State.t) :=
  data <- gets World.privateData ;;
  match data with
  | Some d => ret d
  | None => throw TypeError
  end.

(** An assignment [state.field = v]: [state] is the object stored in the
    WeakMap, so the write is seen through [privateData.get(this)]. *)
Definition assign_state (f : State.t -> State.t) : M unit :=
  modify (fun w =>
    match World.privateData w with
    | Some (config, state) => World.set_privateData (Some (config, f state)) w
    | None => w
    end).

(** Writes to the style element with node [n]. *)
Definition update_element (n : nat) (f : StyleElement.t -> StyleElement.t) : M unit :=
  modify (fun w =>
    World.set_elements
      (map (fun e => if Nat.eqb (StyleElement.node e) n then f e else e)
         (World.elements w)) w).

(** [document.createElement('style')]. *)
Definition createElement_style : M nat :=
  n <- gets World.next_node ;;
  modify (fun w =>
    World.set_next_node (S n)
      (World.set_elements
         ({| StyleElement.node := n; StyleElement.id := "";
             StyleElement.attributes := []; StyleElement.textContent := "" |}
            :: World.elements w) w)) ;;
  ret n.

Definition head_appendChild (n : nat) : M unit :=
  modify (fun w =>
    World.set_head
      (filter (fun m => negb (Nat.eqb m n)) (World.head w) ++ [n])%list w).

(** [el.parentNode?.removeChild(el)]. *)
Definition remove_from_parent (n : nat) : M unit :=
  modify (fun w =>
    World.set_head (filter (fun m => negb (Nat.eqb m n)) (World.head w)) w).

Definition requestAnimationFrame : M nat :=
  h <- gets World.next_handle ;;
  modify (fun w =>
    World.set_next_handle (S h)
      (World.set_animationFrames (World.animationFrames w ++ [h])%list w)) ;;
  ret h.

Definition cancelAnimationFrame (h : nat) : M unit :=
  modify (fun w =>
    World.set_animationFrames
      (filter (fun k => negb (Nat.eqb k h)) (World.animationFrames w)) w).

(* ================================================================= *)
(** * [debounce] and [generateId] *)

(** The function [debounce(fn)] returns, for [fn = () => this.update()]:
    cancel the pending frame, if any, and request a new one. The callback it
    requests is [frame_callback] below. *)
Definition debounced : M unit :=
  timeoutId <- gets World.timeoutId ;;
  match timeoutId with
  | Some h => when (negb (Nat.eqb h 0)) (cancelAnimationFrame h)
  | None => ret tt
  end ;;
  h <- requestAnimationFrame ;;
  modify (World.set_timeoutId (Some h)).

(** [Math.random().toString(36)]: the draw lies in [0, 1), so its text is
    ["0"] or ["0."] followed by base-36 digits. A draw is given by these
    digits. *)
Definition digit36 (d : nat) : ascii :=
  let d := (d mod 36)%nat in
  if (d <? 10)%nat then ascii_of_nat (48 + d) else ascii_of_nat (87 + d).

Definition random_toString36 (draw : list nat) : string :=
  match draw with
  | [] => "0"
  | _ :: _ => "0." ++ string_of_list_ascii (map digit36 draw)
  end.

Definition generateId (draw : list nat) : string :=
  "scrollmarks-" ++ String.substring 2 9 (random_toString36 draw).

(* ================================================================= *)
(** * The methods of [ScrollMarks] *)

Definition _observeElements (dom : Dom.t) : M unit :=
  '(config, state) <- destructure_privateData ;;
  match State.resizeObserver state with
  | None => ret tt
  | Some _ =>
      forEach
        (fun el =>
           assign_state (fun s =>
             match State.resizeObserver s with
             | Some targets =>
                 State.set_resizeObserver (Some (targets ++ [el])%list) s
             | None => s
             end))
        (Dom.querySelectorAll dom (Config.selector config))
  end.

Definition _collectMarks (dom : Dom.t) : M (list ColorMark.t) :=
  '(config, _) <- destructure_privateData ;;
  ret (collectMarks config dom).

Definition _buildGradient (marks : list ColorMark.t) : M string :=
  '(config, _) <- destructure_privateData ;;
  ret (buildGradient config marks).

Definition _applyStyles (gradient : string) : M unit :=
  '(config, state) <- destructure_privateData ;;
  match State.styleElement state with
  | None => ret tt
  | Some n =>
      update_element n (StyleElement.set_textContent (style_text config gradient))
  end.

Definition update (dom : Dom.t) : M unit :=
  data <- gets World.privateData ;;
  match data with
  | None => ret tt
  | Some (_, state) =>
      if State.isDestroyed state then ret tt
      else if Js.le (_getScrollHeight dom) (_getViewportHeight dom) then
        match State.styleElement state with
        | Some n => update_element n (StyleElement.set_textContent "")
        | None => ret tt
        end
      else
        marks <- _collectMarks dom ;;
        assign_state (State.set_marks marks) ;;
        gradient <- _buildGradient marks ;;
        _applyStyles gradient
  end.

Definition getMarks : M (list ColorMark.t) :=
  data <- gets World.privateData ;;
  match data with
  | None => ret []
  | Some (_, state) => ret (State.marks state)
  end.

Definition getId : M string :=
  data <- gets World.privateData ;;
  match data with
  | None => ret ""
  | Some (_, state) => ret (State.id state)
  end.

Definition destroy : M unit :=
  data <- gets World.privateData ;;
  match data with
  | None => ret tt
  | Some (_, state) =>
      if State.isDestroyed state then ret tt
      else
        assign_state (State.set_isDestroyed true) ;;
        match State.styleElement state with
        | Some n => remove_from_parent n
        | None => ret tt
        end ;;
        match State.resizeObserver state with
        | Some _ => assign_state (State.set_resizeObserver (Some []))
        | None => ret tt
        end ;;
        match State.mutationObserver state with
        | Some _ => assign_state (State.set_mutationObserver (Some false))
        | None => ret tt
        end ;;
        match State.boundUpdate state with
        | Some f =>
            modify (fun w =>
              World.set_resizeListeners
                (filter (fun g => negb (same_closure f g))
                   (World.resizeListeners w)) w)
        | None => ret tt
        end ;;
        modify (World.set_privateData None)
  end.

Definition _init (dom : Dom.t) : M unit :=
  '(_, state) <- destructure_privateData ;;
  n <- createElement_style ;;
  assign_state (State.set_styleElement (Some n)) ;;
  update_element n (StyleElement.set_id (State.id state)) ;;
  update_element n (StyleElement.setAttribute "data-scrollmarks" "") ;;
  head_appendChild n ;;
  modify (World.set_timeoutId None) ;;
  assign_state (State.set_boundUpdate (Some debounced_update)) ;;
  p <- gets World.platform ;;
  when (has_ResizeObserver p)
    (assign_state (State.set_resizeObserver (Some [])) ;;
     _observeElements dom) ;;
  when (has_MutationObserver p)
    (assign_state (State.set_mutationObserver (Some true))) ;;
  modify (fun w =>
    World.set_resizeListeners
      (World.resizeListeners w ++ [debounced_update])%list w) ;;
  update dom.

(** [new ScrollMarks(options)]; [draw] is what [Math.random()] returns. *)
Definition new_ScrollMarks (draw : list nat) (options : Options.t)
    (dom : Dom.t) : M unit :=
  let config := make_config options in
  let state :=
    {| State.id := generateId draw;
       State.styleElement := None;
       State.resizeObserver := None;
       State.mutationObserver := None;
       State.isDestroyed := false;
       State.boundUpdate := None;
       State.marks := [] |} in
  modify (World.set_privateData (Some (config, state))) ;;
  _init dom.

(* ================================================================= *)
(** * What the browser does to a page with an instance *)

(** The callback [debounced] hands to [requestAnimationFrame]. *)
Definition frame_callback (dom : Dom.t) : M unit :=
  update dom ;;
  modify (World.set_timeoutId None).

(** One display frame: the callbacks pending at its start run in order. *)
Definition animation_frame (dom : Dom.t) : M unit :=
  pending <- gets World.animationFrames ;;
  modify (World.set_animationFrames []) ;;
  forEach (fun _ => frame_callback dom) pending.

Inductive MutationType := childList | attributes | characterData.

Record MutationRecord := {
  mutation_type : MutationType;
  mutation_attributeName : option string
}.

(** The callback given to [new MutationObserver]. *)
Definition mutation_callback (dom : Dom.t) (config : Config.t)
    (mutations : list MutationRecord) : M unit :=
  let shouldUpdate :=
    existsb
      (fun m =>
         match mutation_type m with
         | childList => true
         | attributes =>
             match mutation_attributeName m with
             | Some a => String.eqb a (Config.attributeName config)
             | None => false
             end
         | characterData => false
         end)
      mutations in
  when shouldUpdate (_observeElements dom ;; debounced).

Inductive Event :=
| call_update
| call_getMarks
| call_getId
| call_destroy
| window_resize
| observed_resize
| observed_mutations (mutations : list MutationRecord)
| display_frame.

(** One event on the page whose DOM is [dom]: a call of a public method, or
    a notification delivered to whatever is still subscribed. *)
Definition step (dom : Dom.t) (e : Event) : M unit :=
  match e with
  | call_update => update dom
  | call_getMarks => getMarks ;; ret tt
  | call_getId => getId ;; ret tt
  | call_destroy => destroy
  | window_resize =>
      listeners <- gets World.resizeListeners ;;
      forEach (fun _ => debounced) listeners
  | observed_resize =>
      data <- gets World.privateData ;;
      match data with
      | Some (_, state) =>
          match State.resizeObserver state with
          | Some (_ :: _) => debounced
          | _ => ret tt
          end
      | None => ret tt
      end
  | observed_mutations mutations =>
      data <- gets World.privateData ;;
      match data with
      | Some (config, state) =>
          match State.mutationObserver state with
          | Some true => mutation_callback dom config mutations
          | _ => ret tt
          end
      | None => ret tt
      end
  | display_frame => animation_frame dom
  end.

Fixpoint run (history : list (Dom.t * Event)) : M unit :=
  match history with
  | [] => ret tt
  | (dom, e) :: history' => step dom e ;; run history'
  end.

(** The world a result leaves, when the call returned. *)
Definition world_of {A} (r : Result A) : option World.t :=
  match r with Ok _ w => Some w | Throw _ => None end.

Definition value_of {A} (r : Result A) : option A :=
  match r with Ok a _ => Some a | Throw _ => None end.

(* ================================================================= *)
(** * [ScrollMarks.autoInit] *)

(** [parseInt(s, 10)]: leading white space is skipped, a sign is read, then
    the longest run of decimal digits; [None] is [NaN], the answer when no
    digit is found. The integer is the one the digits write; the code's
    number is this integer up to 2^53 and the nearest double beyond. *)
Definition is_digit (c : ascii) : bool :=
  let n := nat_of_ascii c in ((48 <=? n) && (n <=? 57))%nat.

Fixpoint leading_digits (l : list ascii) : list ascii :=
  match l with
  | c :: l' => if is_digit c then c :: leading_digits l' else []
  | [] => []
  end.

Definition digits_value (l : list ascii) : Z :=
  fold_left (fun acc c => (10 * acc + Z.of_nat (nat_of_ascii c - 48))%Z) l 0%Z.

Definition parseInt (s : string) : option Z :=
  let l := Js.trimStart_chars (list_ascii_of_string s) in
  let '(negative, l) :=
    match l with
    | c :: r =>
        if Ascii.eqb c "-" then (true, r)
        else if Ascii.eqb c "+" then (false, r)
        else (false, l)
    | [] => (false, l)
    end in
  match leading_digits l with
  | [] => None
  | ds => Some (if negative then (- digits_value ds)%Z else digits_value ds)
  end.

(** The options [autoInit] reads from the attributes of [document.body]:
    [dataset.scrollmarksTrack] is the attribute [data-scrollmarks-track],
    and so on. A width that parses to [NaN] is given as [undefined]: both
    are falsy, and the constructor reads the option through [||] only. *)
Definition auto_options (body : list (string * string)) : Options.t :=
  {| Options.container := None;
     Options.trackColor := Element.lookup "data-scrollmarks-track" body;
     Options.thumbColor := Element.lookup "data-scrollmarks-thumb" body;
     Options.selector := None;
     Options.attributeName := None;
     Options.scrollbarWidth :=
       if Js.truthy (Element.lookup "data-scrollmarks-width" body) then
         match Element.lookup "data-scrollmarks-width" body with
         | Some s => option_map inject_Z (parseInt s)
         | None => None
         end
       else None |}.

(** [ScrollMarks.autoInit()]: [body] is [None] when there is no document or
    no [document.body]; the answer tells whether an instance was built
    ([false] is [null]). *)
Definition autoInit (draw : list nat) (body : option (list (string * string)))
    (dom : Dom.t) : M bool :=
  match body with
  | None => ret false
  | Some attrs =>
      match Element.lookup "data-scrollmarks-auto" attrs with
      | None => ret false
      | Some _ => new_ScrollMarks draw (auto_options attrs) dom ;; ret true
      end
  end.

(* ================================================================= *)
(** * The vocabulary of the specification *)

(** The invariant of a [ColorMark]: a non-empty interval of [0, 100]. *)
Definition within_bounds (m : ColorMark.t) : Prop :=
  0 <= ColorMark.start m /\ ColorMark.start m < ColorMark.end_ m
  /\ ColorMark.end_ m <= 100.

Definition start_le (a b : ColorMark.t) : Prop :=
  ColorMark.start a <= ColorMark.start b.

Definition starts_at (v : Q) (m : ColorMark.t) : bool :=
  Qeq_bool (ColorMark.start m) v.


(** The tolerance of the gradient builder. *)
Definition eps : Q := 1 # 100.




(** A band that begins at [x] leaves no gap after [prev]: it begins at
    [prev] itself, or the builder's own test [x > prev + 0.01] fails. *)
Definition continues (prev x : Q) : Prop :=
  x = prev \/ Js.gt x (prev + (1 # 100)) = false.


(** The instance is Active: its private data are stored, with the
    configuration [config], the identifier [id] and the style element [n]. *)
Definition active (n : nat) (id : string) (config : Config.t) (w : World.t)
    : Prop :=
  exists state,
    World.privateData w = Some (config, state)
    /\ State.isDestroyed state = false
    /\ State.styleElement state = Some n
    /\ State.id state = id.

(** The instance is Destroyed: its private data are gone; the style
    elements are [els] and the children of [document.head] are [hd]. *)
Definition released (els : list StyleElement.t) (hd : list nat) (w : World.t)
    : Prop :=
  World.privateData w = None /\ World.elements w = els /\ World.head w = hd.

(** [c] returns normally from a world that satisfies [P], in one that
    satisfies it too. *)
Definition preserves (P : World.t -> Prop) (c : M unit) : Prop :=
  forall w, P w -> exists w', c w = Ok tt w' /\ P w'.

(** Whether [destroy()] is called in a history. *)
Definition destroyed_in (history : list (Dom.t * Event)) : bool :=
  existsb (fun de => match snd de with call_destroy => true | _ => false end)
    history.

(** The characters a base-36 rendering is made of. *)
Definition is_base36 (c : ascii) : bool :=
  let n := nat_of_ascii c in
  ((48 <=? n) && (n <=? 57) || (97 <=? n) && (n <=? 122))%nat.

(** The scroll offset [_collectMarks] adds to a viewport-relative top:
    [window.pageYOffset || document.documentElement.scrollTop]. *)
Definition scroll_offset (dom : Dom.t) : Q :=
  Some (Dom.pageYOffset dom) ||| Dom.documentElement_scrollTop dom.

(** The document-relative top of an element. *)
Definition document_top (dom : Dom.t) (el : Element.t) : Q :=
  rect_top (Element.getBoundingClientRect el) + scroll_offset dom.

(** The mark [_collectMarks] pushes for an element whose color attribute is
    [c], on a page of total height [H]. *)
Definition mark_of (dom : Dom.t) (H : Q) (el : Element.t) (c : string)
    : ColorMark.t :=
  {| ColorMark.start := Qmax 0 ((document_top dom el / H) * 100);
     ColorMark.end_ :=
       Qmin 100
         (((document_top dom el
            + rect_height (Element.getBoundingClientRect el)) / H) * 100);
     ColorMark.color := Js.trim c |}.

(** A string that neither begins nor ends with white space. *)
Definition no_outer_white_space (s : string) : Prop :=
  Js.begins_with_white_space false (list_ascii_of_string s) = false
  /\ Js.begins_with_white_space true (rev (list_ascii_of_string s)) = false.

(** The band the gradient builder emits for a mark. *)
Definition band_of (m : ColorMark.t) : Segment :=
  {| seg_color := ColorMark.color m;
     seg_from := Fixed2 (ColorMark.start m);
     seg_to := Fixed2 (ColorMark.end_ m) |}.

(** The bands of the loop started at [prev], closing band included. *)
Definition bands_from (tc : string) (prev : Q) (marks : list ColorMark.t)
    : list Segment :=
  segments (fst (mark_stops tc prev marks)
            ++ closing_stops tc (snd (mark_stops tc prev marks)))%list.

(** The private data of the instance are stored. *)
Definition alive (w : World.t) : Prop := World.privateData w <> None.

(** [c] leaves the part [f] of the world as it is, whenever it returns. *)
Definition keeps {A B} (f : World.t -> A) (c : M B) : Prop :=
  forall w b w', c w = Ok b w' -> f w' = f w.

(** The style elements after the text [text] was written to the node
    [n]. *)
Definition write_text (n : nat) (text : string) (els : list StyleElement.t)
    : list StyleElement.t :=
  map (fun e =>
         if Nat.eqb (StyleElement.node e) n
         then StyleElement.set_textContent text e else e)
    els.

(** What the scheduler holds: the variable of the debounced function, the
    pending frames and the next handle. *)
Definition schedule (w : World.t) : option nat * list nat * nat :=
  (World.timeoutId w, World.animationFrames w, World.next_handle w).

(** At most one frame is pending, and [timeoutId] is its handle. *)
Definition coalesced (w : World.t) : Prop :=
  (1 <= World.next_handle w)%nat
  /\ match World.timeoutId w with
     | Some h =>
         World.animationFrames w = [h]
         /\ (1 <= h)%nat /\ (h < World.next_handle w)%nat
     | None => World.animationFrames w = []
     end.

(** The parts of the world a page shows: the private data, the style
    elements and the children of [document.head]. *)
Definition page_state (w : World.t)
    : option (Config.t * State.t) * list StyleElement.t * list nat :=
  (World.privateData w, World.elements w, World.head w).

(** Everything of a world but the two observers of the instance. *)
Definition outside_observers (w : World.t) :=
  (World.elements w, World.head w, schedule w, World.resizeListeners w,
   World.next_node w,
   option_map
     (fun d : Config.t * State.t =>
        (fst d, State.id (snd d), State.styleElement (snd d),
         State.isDestroyed (snd d), State.boundUpdate (snd d),
         State.marks (snd d)))
     (World.privateData w)).

(** The style element [_init] creates for the instance [id], before any
    text is written to it. *)
Definition fresh_style_element (n : nat) (id : string) : StyleElement.t :=
  {| StyleElement.node := n;
     StyleElement.id := id;
     StyleElement.attributes := [("data-scrollmarks", "")];
     StyleElement.textContent := "" |}.

(** The text [update] leaves in the style element of an instance. *)
Definition rendered_text (config : Config.t) (dom : Dom.t) : string :=
  if Js.le (_getScrollHeight dom) (_getViewportHeight dom) then ""
  else style_text config (buildGradient config (collectMarks config dom)).

(** A burst of resize notifications, one for each page of [doms]. *)
Definition resize_burst (doms : list Dom.t) : list (Dom.t * Event) :=
  map (fun d => (d, window_resize)) doms.




(** Whether a mutation record makes the observer's callback act: a change
    of the child list, or of the color attribute. *)
Definition relevant_mutation (config : Config.t) (m : MutationRecord) : Prop :=
  mutation_type m = childList
  \/ (mutation_type m = attributes
      /\ mutation_attributeName m = Some (Config.attributeName config)).

(** The attribute [data-scrollmarks-width], when it gives an integer, gives
    one that a number holds exactly. *)
Definition exact_width (body : list (string * string)) : bool :=
  match Element.lookup "data-scrollmarks-width" body with
  | Some s =>
      match parseInt s with
      | Some z => (Z.abs z <=? 2 ^ 53)%Z
      | None => true
      end
  | None => true
  end.

(** The width [autoInit] configures from the attribute
    [data-scrollmarks-width]. *)
Definition auto_width (body : list (string * string)) : Q :=
  match Element.lookup "data-scrollmarks-width" body with
  | Some s =>
      match parseInt s with
      | Some z => if (z =? 0)%Z then 14 else inject_Z z
      | None => 14
      end
  | None => 14
  end.

(* ================================================================= *)
(** * Sample pages *)

Module Sample.

Definition marked (top height : Q) (color : string) : Element.t :=
  {| Element.getBoundingClientRect :=
       {| rect_top := top; rect_height := height |};
     Element.attributes := [("data-scroll-color", color)] |}.

(** A page of total height [scrollHeight] in a viewport 800 high, not
    scrolled, whose marked elements are [els]. *)
Definition page (scrollHeight : Q) (els : list Element.t) : Dom.t :=
  {| Dom.querySelectorAll := fun _ => els;
     Dom.body_scrollHeight := scrollHeight;
     Dom.documentElement_scrollHeight := scrollHeight;
     Dom.documentElement_scrollTop := 0;
     Dom.pageYOffset := 0;
     Dom.innerHeight := 800 |}.

Definition config : Config.t := make_config Options.empty.

Definition browser : World.t :=
  World.initial {| has_ResizeObserver := true; has_MutationObserver := true |}.

(** A value of [Math.random()], by its base-36 digits: [0.i3]. *)
Definition draw : list nat := [18; 3]%nat.

(** Options that are all given, with falsy values. *)
Definition falsy_options : Options.t :=
  {| Options.container := None;
     Options.trackColor := Some "";
     Options.thumbColor := Some "";
     Options.selector := Some "";
     Options.attributeName := Some "";
     Options.scrollbarWidth := Some 0 |}.

(** One element, top 100, height 200, on a page 2000 high. *)
Definition one_mark : Dom.t := page 2000 [marked 100 200 "#ff0000"].

(** An element nested in another one. *)
Definition nested : Dom.t :=
  page 2000 [marked 0 1000 "red"; marked 200 400 "blue"].

(** An element whose color attribute is two spaces. *)
Definition blank_color : Dom.t := page 2000 [marked 100 200 "  "].

(** The page after its content shrank below the viewport. *)
Definition flat : Dom.t := page 600 [].

(** The world once an instance is built on the page [one_mark]. *)
Definition started : World.t :=
  match new_ScrollMarks draw Options.empty one_mark browser with
  | Ok _ w => w
  | Throw _ => browser
  end.

(** A [body] that asks for auto-discovery with a width of 20. *)
Definition auto_body : list (string * string) :=
  [ ("data-scrollmarks-auto", ""); ("data-scrollmarks-track", "#123456");
    ("data-scrollmarks-width", "20px") ].

(** Mutation records the observer's callback ignores. *)
Definition other_mutations : list MutationRecord :=
  [ {| mutation_type := characterData; mutation_attributeName := None |};
    {| mutation_type := attributes; mutation_attributeName := Some "class" |} ].

(** A life without [destroy()]: a forced update, a burst of two resize
    notifications and the display frame that follows. *)
Definition busy_history : list (Dom.t * Event) :=
  [ (nested, call_update); (nested, window_resize); (flat, window_resize);
    (one_mark, display_frame) ].

End Sample.

(* ================================================================= *)
(** * Numbers, lists and the monad: basic facts *)

Lemma lt_true_iff (x y : Q) : Js.lt x y = true <-> x < y.
Proof.
  unfold Js.lt. rewrite Qlt_alt. destruct (x ?= y); split; congruence.
Qed.

Lemma lt_false_iff (x y : Q) : Js.lt x y = false <-> y <= x.
Proof.
  rewrite <- Bool.not_true_iff_false, lt_true_iff. split.
  - apply Qnot_lt_le.
  - apply Qle_not_lt.
Qed.

Lemma gt_true_iff (x y : Q) : Js.gt x y = true <-> y < x.
Proof. apply lt_true_iff. Qed.

Lemma gt_false_iff (x y : Q) : Js.gt x y = false <-> x <= y.
Proof. apply lt_false_iff. Qed.

Lemma fold_push_app {A B} (f : A -> option B) (l : list A) (acc : list B) :
  fold_left
    (fun acc a => match f a with Some b => (acc ++ [b])%list | None => acc end)
    l acc
  = (acc ++ flat_map (fun a => match f a with Some b => [b] | None => [] end) l)%list.
Proof.
  revert acc. induction l as [|a l IH]; intros acc; simpl.
  - now rewrite app_nil_r.
  - rewrite IH. destruct (f a); simpl.
    + now rewrite <- app_assoc.
    + reflexivity.
Qed.

Lemma forEach_push_flat_map {A B} (f : A -> option B) (l : list A) :
  Js.forEach_push f l
  = flat_map (fun a => match f a with Some b => [b] | None => [] end) l.
Proof. unfold Js.forEach_push. now rewrite fold_push_app. Qed.

Lemma forEach_push_Forall {A B} (P : B -> Prop) (f : A -> option B) (l : list A) :
  (forall a b, f a = Some b -> P b) -> Forall P (Js.forEach_push f l).
Proof.
  intros Hf. rewrite forEach_push_flat_map.
  induction l as [|a l IH]; simpl.
  - constructor.
  - apply Forall_app. split; [|exact IH].
    destruct (f a) eqn:E; [|constructor].
    constructor; [eauto | constructor].
Qed.

(* ================================================================= *)
(** * [Array.prototype.sort] with the comparator [a.start - b.start] *)

Section SortByKey.
Context {A : Type} (key : A -> Q).

Let compareFn (a b : A) : Q := key a - key b.
Let key_le (a b : A) : Prop := key a <= key b.

Lemma insert_perm (x : A) (l : list A) :
  Permutation (x :: l) (Js.insert compareFn x l).
Proof.
  induction l as [|y l IH]; simpl.
  - apply Permutation_refl.
  - destruct (Js.gt (compareFn x y) 0).
    + eapply perm_trans; [apply perm_swap|]. now apply perm_skip.
    + apply Permutation_refl.
Qed.

Lemma sort_perm (l : list A) : Permutation l (Js.sort compareFn l).
Proof.
  induction l as [|x l IH]; simpl.
  - constructor.
  - eapply perm_trans; [apply perm_skip, IH | apply insert_perm].
Qed.

Lemma insert_sorted (x : A) (l : list A) :
  StronglySorted key_le l -> StronglySorted key_le (Js.insert compareFn x l).
Proof.
  induction 1 as [|y l Hl IH Hy]; simpl.
  - repeat constructor.
  - destruct (Js.gt (compareFn x y) 0) eqn:E.
    + apply gt_true_iff in E. unfold compareFn in E.
      constructor; [exact IH|].
      eapply Permutation_Forall; [apply insert_perm|].
      constructor; [unfold key_le; lra | exact Hy].
    + apply gt_false_iff in E. unfold compareFn in E.
      constructor; [now constructor|].
      constructor; [unfold key_le; lra|].
      eapply Forall_impl; [|exact Hy].
      unfold key_le. intros a Ha. lra.
Qed.

Lemma sort_sorted (l : list A) : StronglySorted key_le (Js.sort compareFn l).
Proof.
  induction l as [|x l IH]; simpl.
  - constructor.
  - now apply insert_sorted.
Qed.

(** Insertion only moves [x] past elements with a strictly smaller key, so
    the elements of any one key keep their order. *)
Lemma insert_filter (v : Q) (x : A) (l : list A) :
  filter (fun a => Qeq_bool (key a) v) (Js.insert compareFn x l)
  = filter (fun a => Qeq_bool (key a) v) (x :: l).
Proof.
  induction l as [|y l IH]; [reflexivity|].
  cbn [Js.insert].
  destruct (Js.gt (compareFn x y) 0) eqn:E; [|reflexivity].
  apply gt_true_iff in E. unfold compareFn in E.
  cbn [filter] in *. rewrite IH.
  destruct (Qeq_bool (key x) v) eqn:Ex; [|reflexivity].
  destruct (Qeq_bool (key y) v) eqn:Ey; [|reflexivity].
  apply Qeq_bool_iff in Ex, Ey. lra.
Qed.

Lemma sort_filter (v : Q) (l : list A) :
  filter (fun a => Qeq_bool (key a) v) (Js.sort compareFn l)
  = filter (fun a => Qeq_bool (key a) v) l.
Proof.
  induction l as [|x l IH]; [reflexivity|].
  cbn [Js.sort]. rewrite insert_filter. cbn [filter]. now rewrite IH.
Qed.
End SortByKey.

(* ================================================================= *)
(** * The mark collector *)

Lemma collect_element_within_bounds config dom totalHeight el m :
  collect_element config dom totalHeight el = Some m -> within_bounds m.
Proof.
  unfold collect_element.
  destruct (negb _); [discriminate|].
  destruct (Element.getAttribute _ _); [|discriminate].
  destruct (Js.lt _ _) eqn:E; [|discriminate].
  intros [= <-]. apply lt_true_iff in E.
  repeat split; cbn.
  - apply Q.le_max_l.
  - exact E.
  - apply Q.le_min_l.
Qed.

Lemma collectMarks_perm config dom :
  Permutation (discovered_marks config dom) (collectMarks config dom).
Proof. apply (sort_perm ColorMark.start). Qed.

(** C2. Whatever the geometry of the matched elements and the total
    scrollable height, every mark the collector keeps satisfies
    [0 <= start < end <= 100]: [start] is clamped from below only and [end]
    from above only, and the test [startPercent < endPercent] that drops the
    degenerate results supplies the two missing bounds. *)
Theorem collected_marks_within_bounds (config : Config.t) (dom : Dom.t) :
  Forall within_bounds (collectMarks config dom).
Proof.
  eapply Permutation_Forall; [apply collectMarks_perm|].
  unfold discovered_marks. destruct (Js.le _ _); [constructor|].
  apply forEach_push_Forall. intros el m.
  apply collect_element_within_bounds.
Qed.

(** C3. For any sequence of matched elements the collector's result is
    ascending by [start], holds exactly the marks discovered, and keeps the
    marks of any one [start] in their discovery order. *)
Theorem collected_marks_sorted_stable (config : Config.t) (dom : Dom.t) :
  StronglySorted start_le (collectMarks config dom)
  /\ Permutation (discovered_marks config dom) (collectMarks config dom)
  /\ forall v : Q,
       filter (starts_at v) (collectMarks config dom)
       = filter (starts_at v) (discovered_marks config dom).
Proof.
  split; [|split].
  - apply (sort_sorted ColorMark.start).
  - apply collectMarks_perm.
  - intros v. apply (sort_filter ColorMark.start).
Qed.

(** The part of the exclusion rule the code does implement: an element
    without the attribute, or with an empty one, yields no mark. *)
Lemma collect_element_skips_missing_or_empty config dom totalHeight el :
  Element.getAttribute el (Config.attributeName config) = None
  \/ Element.getAttribute el (Config.attributeName config) = Some "" ->
  collect_element config dom totalHeight el = None.
Proof.
  unfold collect_element. intros [-> | ->]; reflexivity.
Qed.

(** C4, at the failing input: an element whose color attribute is two
    spaces passes the test [!color], which runs before [trim], and is kept
    as a mark whose color is the empty string; the gradient then holds stops
    with no color. *)
Theorem blank_color_attribute_is_kept :
  map ColorMark.color (collectMarks Sample.config Sample.blank_color) = [""]
  /\ buildGradient Sample.config (collectMarks Sample.config Sample.blank_color)
     = "linear-gradient(to bottom, #1a1a2e 0.00%, #1a1a2e 5.00%,  5.00%,  15.00%, #1a1a2e 15.00%, #1a1a2e 100%)".
Proof. split; vm_compute; reflexivity. Qed.

(* ================================================================= *)
(** * The gradient builder *)

(** The loop started at [prev], followed by the closing test. *)
Lemma mark_stops_cons tc prev m rest :
  mark_stops tc prev (m :: rest)
  = ((if Js.gt (ColorMark.start m) (prev + (1 # 100)) then
        [ {| stop_color := tc; stop_at := Fixed2 prev |};
          {| stop_color := tc; stop_at := Fixed2 (ColorMark.start m) |} ]
      else [])
     ++ [ {| stop_color := ColorMark.color m;
             stop_at := Fixed2 (ColorMark.start m) |};
          {| stop_color := ColorMark.color m;
             stop_at := Fixed2 (ColorMark.end_ m) |} ]
     ++ fst (mark_stops tc (ColorMark.end_ m) rest),
     snd (mark_stops tc (ColorMark.end_ m) rest))%list.
Proof.
  cbn [mark_stops]. now destruct (mark_stops tc (ColorMark.end_ m) rest).
Qed.

Lemma gradient_stops_unfold tc marks :
  gradient_stops tc marks
  = (fst (mark_stops tc 0 marks)
     ++ closing_stops tc (snd (mark_stops tc 0 marks)))%list.
Proof. unfold gradient_stops. now destruct (mark_stops tc 0 marks). Qed.

Lemma bands_from_cons tc prev m rest :
  bands_from tc prev (m :: rest)
  = ((if Js.gt (ColorMark.start m) (prev + (1 # 100)) then
        [ {| seg_color := tc; seg_from := Fixed2 prev;
             seg_to := Fixed2 (ColorMark.start m) |} ]
      else [])
     ++ band_of m :: bands_from tc (ColorMark.end_ m) rest)%list.
Proof.
  unfold bands_from. rewrite mark_stops_cons. cbn [fst snd].
  destruct (Js.gt _ _); reflexivity.
Qed.

Lemma bands_from_nil tc prev :
  bands_from tc prev []
  = if Js.lt prev (9999 # 100) then
      [ {| seg_color := tc; seg_from := Fixed2 prev; seg_to := Hundred |} ]
    else [].
Proof.
  unfold bands_from, closing_stops. cbn. now destruct (Js.lt _ _).
Qed.

Lemma gradient_bands tc marks :
  segments (gradient_stops tc marks) = bands_from tc 0 marks.
Proof. unfold bands_from. now rewrite gradient_stops_unfold. Qed.


(** In exact arithmetic a band that continues the one before it begins no
    more than the tolerance after its end. *)
Lemma continues_within_tolerance prev x : continues prev x -> x <= prev + eps.
Proof.
  unfold eps. intros [-> | H]; [lra|]. now apply gt_false_iff in H.
Qed.


Lemma bands_from_keep tc marks : forall prev,
  Forall (fun m => In (band_of m) (bands_from tc prev marks)) marks
  /\ Forall
       (fun b => seg_color b = tc
                 \/ In (seg_color b) (map ColorMark.color marks))
       (bands_from tc prev marks)
  /\ (List.length marks <= List.length (bands_from tc prev marks)
      <= 2 * List.length marks + 1)%nat.
Proof.
  induction marks as [|m rest IH]; intros prev.
  - rewrite bands_from_nil. split; [constructor|].
    destruct (Js.lt _ _); cbn; split; try lia; repeat constructor.
  - rewrite bands_from_cons.
    destruct (IH (ColorMark.end_ m)) as (Hin & Hcol & Hlen).
    split; [|split].
    + constructor.
      * apply in_or_app. right. now left.
      * eapply Forall_impl; [|exact Hin]. cbn beta. intros a Ha.
        apply in_or_app. right. now right.
    + apply Forall_app. split.
      * destruct (Js.gt _ _); repeat constructor.
      * constructor; [right; now left|].
        eapply Forall_impl; [|exact Hcol]. cbn beta.
        intros b [Hb | Hb]; [now left | right; now right].
    + rewrite length_app. cbn [List.length].
      destruct (Js.gt _ _); cbn [List.length]; lia.
Qed.



(* ================================================================= *)
(** * The lifecycle *)

#[local] Arguments Js.le : simpl never.
#[local] Arguments collectMarks : simpl never.
#[local] Arguments buildGradient : simpl never.
#[local] Arguments style_text : simpl never.
#[local] Arguments generateId : simpl never.
#[local] Arguments make_config : simpl never.

Ltac open_world w :=
  destruct w as [w_pd w_els w_hd w_nn w_tid w_afs w_nh w_rl w_pf]; cbn in *.

Ltac run_monad :=
  unfold bind, gets, modify, ret, when; cbn.

Lemma update_element_twice n f (l : list StyleElement.t) :
  (forall e, StyleElement.node (f e) = StyleElement.node e) ->
  (forall e, f (f e) = f e) ->
  map (fun e => if Nat.eqb (StyleElement.node e) n then f e else e)
    (map (fun e => if Nat.eqb (StyleElement.node e) n then f e else e) l)
  = map (fun e => if Nat.eqb (StyleElement.node e) n then f e else e) l.
Proof.
  intros Hn Hf. rewrite map_map. apply map_ext. intros e.
  destruct (Nat.eqb (StyleElement.node e) n) eqn:E.
  - now rewrite Hn, E, Hf.
  - now rewrite E.
Qed.

(** C7. A second [update()] on the same DOM changes nothing: the world it
    returns is the one the first call left, so the text of every style
    element, the one of the instance included, is what the first call
    wrote. *)
Theorem update_twice_same_output (dom : Dom.t) (w : World.t) :
  exists w1 w2,
    update dom w = Ok tt w1
    /\ update dom w1 = Ok tt w2
    /\ w2 = w1
    /\ map StyleElement.textContent (World.document_styles w2)
       = map StyleElement.textContent (World.document_styles w1).
Proof.
  assert (H : exists w1, update dom w = Ok tt w1 /\ update dom w1 = Ok tt w1).
  { open_world w. unfold update. run_monad.
    destruct w_pd as [[config state]|]; [|eexists; split; reflexivity].
    destruct state as [id se ro mo dead bu marks]; cbn.
    destruct dead; [eexists; split; reflexivity|].
    destruct (Js.le (_getScrollHeight dom) (_getViewportHeight dom)).
    - destruct se as [n|]; unfold update_element; run_monad.
      + eexists; split; [reflexivity|]. cbn.
        now rewrite update_element_twice.
      + eexists; split; reflexivity.
    - unfold _collectMarks, _buildGradient, _applyStyles, assign_state,
        destructure_privateData. run_monad.
      destruct se as [n|]; unfold update_element; run_monad.
      + eexists; split; [reflexivity|]. cbn.
        now rewrite update_element_twice.
      + eexists; split; reflexivity. }
  destruct H as (w1 & H1 & H2). exists w1, w1. now repeat split.
Qed.

Lemma preserves_ret P : preserves P (ret tt).
Proof. intros w H. now exists w. Qed.

Lemma preserves_bind P (c1 c2 : M unit) :
  preserves P c1 -> preserves P c2 -> preserves P (c1 ;; c2).
Proof.
  intros H1 H2 w H. destruct (H1 w H) as (w1 & E1 & P1).
  destruct (H2 w1 P1) as (w2 & E2 & P2).
  exists w2. unfold bind. now rewrite E1.
Qed.

Lemma preserves_when P (b : bool) (c : M unit) :
  preserves P c -> preserves P (when b c).
Proof. destruct b; [trivial | intros _; apply preserves_ret]. Qed.

Lemma preserves_forEach {A} P (f : A -> M unit) (l : list A) :
  (forall a, preserves P (f a)) -> preserves P (forEach f l).
Proof.
  intros Hf. induction l as [|a l IH]; cbn [forEach].
  - apply preserves_ret.
  - now apply preserves_bind.
Qed.

Lemma preserves_run P (history : list (Dom.t * Event)) :
  (forall dom e, preserves P (step dom e)) -> preserves P (run history).
Proof.
  intros Hs. induction history as [|[dom e] history IH]; cbn [run].
  - apply preserves_ret.
  - now apply preserves_bind.
Qed.

(** ** The scheduler never touches the page *)

Lemma debounced_active n id config : preserves (active n id config) debounced.
Proof.
  intros w H. open_world w. unfold debounced, cancelAnimationFrame,
    requestAnimationFrame. run_monad.
  destruct w_tid as [[|h]|]; cbn; eexists; (split; [reflexivity|exact H]).
Qed.

Lemma debounced_released els hd : preserves (released els hd) debounced.
Proof.
  intros w H. open_world w. unfold debounced, cancelAnimationFrame,
    requestAnimationFrame. run_monad.
  destruct w_tid as [[|h]|]; cbn; eexists; (split; [reflexivity|exact H]).
Qed.

(** ** [update] *)

Lemma update_active n id config dom : preserves (active n id config) (update dom).
Proof.
  intros w (state & Hpd & Hd & Hse & Hid). open_world w. subst w_pd.
  destruct state as [id' se ro mo dead bu marks]; cbn in *. subst.
  unfold update. run_monad.
  destruct (Js.le (_getScrollHeight dom) (_getViewportHeight dom)).
  - unfold update_element. run_monad.
    eexists; split; [reflexivity|]. eexists; cbn; repeat split.
  - unfold _collectMarks, _buildGradient, _applyStyles, assign_state,
      destructure_privateData, update_element. run_monad.
    eexists; split; [reflexivity|]. eexists; cbn; repeat split.
Qed.

Lemma update_released dom w :
  World.privateData w = None -> update dom w = Ok tt w.
Proof. intros H. unfold update. run_monad. now rewrite H. Qed.

Lemma update_preserves_released els hd dom :
  preserves (released els hd) (update dom).
Proof.
  intros w H. exists w. split; [|exact H].
  apply update_released, H.
Qed.

Lemma set_timeoutId_active n id config v :
  preserves (active n id config) (modify (World.set_timeoutId v)).
Proof. intros w H. open_world w. eexists; split; [reflexivity|exact H]. Qed.

Lemma set_timeoutId_released els hd v :
  preserves (released els hd) (modify (World.set_timeoutId v)).
Proof. intros w H. open_world w. eexists; split; [reflexivity|exact H]. Qed.

Lemma animation_frame_preserves P dom :
  (forall w v, P w -> P (World.set_animationFrames v w)) ->
  preserves P (update dom) ->
  (forall v, preserves P (modify (World.set_timeoutId v))) ->
  preserves P (animation_frame dom).
Proof.
  intros Hq Hu Ht w H. unfold animation_frame.
  unfold bind at 1. unfold gets. unfold bind at 1. unfold modify at 1.
  apply preserves_forEach.
  - intros _. apply preserves_bind; [exact Hu | apply Ht].
  - now apply Hq.
Qed.

(** ** [_observeElements] *)

Lemma observeElements_active n id config dom :
  preserves (active n id config) (_observeElements dom).
Proof.
  intros w H. unfold _observeElements, destructure_privateData.
  unfold bind at 1. unfold bind at 1. unfold gets at 1.
  destruct H as (state & Hpd & Hrest). rewrite Hpd. cbn [ret].
  destruct (State.resizeObserver state).
  - apply preserves_forEach; [|now exists state].
    intros el w' (st' & Hpd' & Hd & Hse & Hid).
    unfold assign_state, modify. rewrite Hpd'.
    eexists; split; [reflexivity|].
    destruct st' as [id' se ro mo dead bu marks]; cbn in *.
    destruct ro; cbn; eexists; cbn; repeat split; assumption.
  - exists w. split; [reflexivity | now exists state].
Qed.

(** ** One event *)

Lemma getMarks_same_world w : world_of (getMarks w) = Some w.
Proof.
  unfold getMarks. run_monad.
  now destruct (World.privateData w) as [[config state]|].
Qed.

Lemma getId_same_world w : world_of (getId w) = Some w.
Proof.
  unfold getId. run_monad.
  now destruct (World.privateData w) as [[config state]|].
Qed.

Lemma getters_preserve P :
  preserves P (getMarks ;; ret tt) /\ preserves P (getId ;; ret tt).
Proof.
  split; intros w H; exists w; (split; [|exact H]); unfold bind.
  - pose proof (getMarks_same_world w) as E.
    destruct (getMarks w); cbn in E; [now injection E as -> | discriminate].
  - pose proof (getId_same_world w) as E.
    destruct (getId w); cbn in E; [now injection E as -> | discriminate].
Qed.

Lemma step_active n id config dom e :
  e <> call_destroy -> preserves (active n id config) (step dom e).
Proof.
  intros He. destruct e; cbn [step]; try congruence.
  - apply update_active.
  - apply getters_preserve.
  - apply getters_preserve.
  - intros w H. unfold bind, gets.
    apply preserves_forEach; [|exact H]. intros _. apply debounced_active.
  - intros w H. unfold bind, gets.
    destruct (World.privateData w) as [[c state]|]; [|now exists w].
    destruct (State.resizeObserver state) as [[|el l]|];
      try (now exists w). now apply debounced_active.
  - intros w H. unfold bind, gets.
    destruct (World.privateData w) as [[c state]|]; [|now exists w].
    destruct (State.mutationObserver state) as [[|]|]; try (now exists w).
    revert w H. apply preserves_when. apply preserves_bind.
    + apply observeElements_active.
    + apply debounced_active.
  - apply animation_frame_preserves.
    + intros w v H. now open_world w.
    + apply update_active.
    + apply set_timeoutId_active.
Qed.

Lemma destroy_released w :
  World.privateData w = None -> destroy w = Ok tt w.
Proof. intros H. unfold destroy. run_monad. now rewrite H. Qed.

Lemma step_released els hd dom e : preserves (released els hd) (step dom e).
Proof.
  destruct e; cbn [step].
  - apply update_preserves_released.
  - apply getters_preserve.
  - apply getters_preserve.
  - intros w H. exists w. split; [|exact H]. apply destroy_released, H.
  - intros w H. unfold bind, gets.
    apply preserves_forEach; [|exact H]. intros _. apply debounced_released.
  - intros w H. exists w. split; [|exact H].
    unfold bind, gets. now rewrite (proj1 H).
  - intros w H. exists w. split; [|exact H].
    unfold bind, gets. now rewrite (proj1 H).
  - apply animation_frame_preserves.
    + intros w v H. now open_world w.
    + apply update_preserves_released.
    + apply set_timeoutId_released.
Qed.

(** ** [destroy] *)

Lemma destroy_active n id config w :
  active n id config w ->
  exists w1,
    destroy w = Ok tt w1
    /\ released (World.elements w)
         (filter (fun m => negb (Nat.eqb m n)) (World.head w)) w1
    /\ World.animationFrames w1 = World.animationFrames w
    /\ World.timeoutId w1 = World.timeoutId w.
Proof.
  intros (state & Hpd & Hd & Hse & Hid). open_world w. subst w_pd.
  destruct state as [id' se ro mo dead bu marks]; cbn in *. subst.
  unfold destroy, assign_state, remove_from_parent. run_monad.
  destruct ro, mo, bu; cbn; eexists; (split; [reflexivity|]);
    cbn; repeat split.
Qed.

Lemma filter_out_not_In n (l : list nat) :
  ~ In n (filter (fun m => negb (Nat.eqb m n)) l).
Proof.
  rewrite filter_In. intros [_ H]. now rewrite Nat.eqb_refl in H.
Qed.

(** ** The constructor *)

Lemma bind_Ok {A B} (c : M A) (k : A -> M B) w a w1 :
  c w = Ok a w1 -> bind c k w = k a w1.
Proof. intros E. unfold bind. now rewrite E. Qed.

Lemma assign_state_active n id config f :
  (forall s, State.isDestroyed (f s) = State.isDestroyed s) ->
  (forall s, State.styleElement (f s) = State.styleElement s) ->
  (forall s, State.id (f s) = State.id s) ->
  preserves (active n id config) (assign_state f).
Proof.
  intros H1 H2 H3 w (state & Hpd & Hd & Hse & Hid).
  unfold assign_state, modify. rewrite Hpd.
  eexists; split; [reflexivity|]. exists (f state).
  rewrite H1, H2, H3. now open_world w.
Qed.

Lemma new_ScrollMarks_active draw options dom w0 :
  exists w,
    new_ScrollMarks draw options dom w0 = Ok tt w
    /\ active (World.next_node w0) (generateId draw) (make_config options) w.
Proof.
  unfold new_ScrollMarks, _init.
  do 9 (erewrite bind_Ok by reflexivity; cbv beta iota).
  apply preserves_bind;
    [|apply preserves_bind; [|apply preserves_bind]|].
  - apply preserves_when, preserves_bind.
    + now apply assign_state_active.
    + apply observeElements_active.
  - apply preserves_when. now apply assign_state_active.
  - intros w H. open_world w. eexists; split; [reflexivity|exact H].
  - apply update_active.
  - open_world w0. eexists; cbn; repeat split.
Qed.

(** ** Histories *)

Lemma destroyed_in_cons dom e history :
  destroyed_in ((dom, e) :: history)
  = match e with call_destroy => true | _ => destroyed_in history end.
Proof. unfold destroyed_in. cbn. now destruct e. Qed.

Lemma run_released els hd history :
  preserves (released els hd) (run history).
Proof. apply preserves_run. intros dom e. apply step_released. Qed.

Lemma run_active n id config history : forall w,
  active n id config w ->
  exists w',
    run history w = Ok tt w'
    /\ if destroyed_in history
       then World.privateData w' = None /\ ~ In n (World.head w')
       else active n id config w'.
Proof.
  induction history as [|[dom e] history IH]; intros w H.
  - exists w. now split.
  - rewrite destroyed_in_cons. cbn [run]. unfold bind.
    assert (D : e = call_destroy \/ e <> call_destroy)
      by (destruct e; (now left) || (right; discriminate)).
    destruct D as [-> | He].
    + cbn [step]. destruct (destroy_active _ _ _ _ H) as (w1 & -> & R & _).
      destruct (run_released _ _ history w1 R) as (w' & -> & R').
      exists w'. split; [reflexivity|]. destruct R' as (Hpd & _ & Hhd).
      split; [exact Hpd|]. rewrite Hhd. apply filter_out_not_In.
    + destruct (step_active n id config dom e He w H) as (w1 & -> & H1).
      destruct (IH w1 H1) as (w' & E & H'). exists w'. split; [exact E|].
      destruct e; try exact H'. congruence.
Qed.

(** Any life of an instance: construction, then any events. *)
Lemma life draw options dom0 history w0 :
  exists w,
    (new_ScrollMarks draw options dom0 ;; run history) w0 = Ok tt w
    /\ if destroyed_in history
       then World.privateData w = None /\ ~ In (World.next_node w0) (World.head w)
       else active (World.next_node w0) (generateId draw) (make_config options) w.
Proof.
  destruct (new_ScrollMarks_active draw options dom0 w0) as (w1 & E1 & H1).
  destruct (run_active _ _ _ history w1 H1) as (w & E & H).
  exists w. split; [|exact H]. unfold bind. now rewrite E1.
Qed.

(** After a life, [destroy()] leaves the instance released, with the frames
    that were pending still pending. *)
Lemma destroy_after_life draw options dom0 history w0 :
  exists w w1,
    (new_ScrollMarks draw options dom0 ;; run history) w0 = Ok tt w
    /\ destroy w = Ok tt w1
    /\ World.privateData w1 = None
    /\ ~ In (World.next_node w0) (World.head w1)
    /\ World.animationFrames w1 = World.animationFrames w.
Proof.
  destruct (life draw options dom0 history w0) as (w & E & H).
  exists w. destruct (destroyed_in history).
  - exists w. destruct H as [Hpd Hhd].
    repeat split; try assumption. now apply destroy_released.
  - destruct (destroy_active _ _ _ _ H) as (w1 & E1 & (Hpd & _ & Hhd) & Haf & _).
    exists w1. repeat split; try assumption.
    rewrite Hhd. apply filter_out_not_In.
Qed.

Lemma document_styles_in_head w e :
  In e (World.document_styles w) -> In (StyleElement.node e) (World.head w).
Proof.
  unfold World.document_styles. rewrite in_flat_map.
  intros (n & Hn & He). apply filter_In in He. destruct He as [_ He].
  apply Nat.eqb_eq in He. now subst.
Qed.

(* ================================================================= *)
(** * The claims about the lifecycle *)

(** On a page that is not scrollable [update()] returns before it touches
    [state.marks]. *)
Lemma update_flat_keeps_marks dom w :
  Js.le (_getScrollHeight dom) (_getViewportHeight dom) = true ->
  exists w', update dom w = Ok tt w' /\ value_of (getMarks w') = value_of (getMarks w).
Proof.
  intros E. open_world w. unfold update, getMarks. run_monad.
  destruct w_pd as [[config state]|]; [|eexists; split; reflexivity].
  destruct state as [id se ro mo dead bu marks]; cbn.
  destruct dead; [eexists; split; reflexivity|]. rewrite E.
  destruct se; unfold update_element; run_monad;
    eexists; split; reflexivity.
Qed.

(** C5, at the failing input. An instance is built on the page with one
    marked element; the page then shrinks below the viewport and loses the
    element. [update()] clears the style text and returns early: [getMarks()]
    still answers the mark of the first page, although the collector finds
    no mark on the page as it is now. *)
Theorem update_on_flat_page_keeps_stale_marks :
  value_of
    ((new_ScrollMarks Sample.draw Options.empty Sample.one_mark ;;
      update Sample.flat ;; getMarks) Sample.browser)
  = value_of
      ((new_ScrollMarks Sample.draw Options.empty Sample.one_mark ;;
        getMarks) Sample.browser)
  /\ option_map (map ColorMark.color)
       (value_of
          ((new_ScrollMarks Sample.draw Options.empty Sample.one_mark ;;
            update Sample.flat ;; getMarks) Sample.browser))
     = Some ["#ff0000"]
  /\ collectMarks Sample.config Sample.flat = []
  /\ option_map
       (fun w => map StyleElement.textContent (World.document_styles w))
       (world_of
          ((new_ScrollMarks Sample.draw Options.empty Sample.one_mark ;;
            update Sample.flat) Sample.browser))
     = Some [""].
Proof.
  split; [vm_compute; reflexivity|].
  split; [vm_compute; reflexivity|].
  split; vm_compute; reflexivity.
Qed.

(** C6. Whatever the life of an instance was, after [destroy()] the calls
    [update()], [getMarks()] and [destroy()] return normally and leave the
    world as it is, [getMarks()] answers the empty sequence, and the style
    element the constructor created is no child of [document.head]: no
    style element of the document is that node. *)
Theorem destroyed_instance_is_inert
    (w0 : World.t) (draw : list nat) (options : Options.t) (dom0 : Dom.t)
    (history : list (Dom.t * Event)) :
  exists w w1,
    (new_ScrollMarks draw options dom0 ;; run history) w0 = Ok tt w
    /\ destroy w = Ok tt w1
    /\ (forall dom, update dom w1 = Ok tt w1)
    /\ getMarks w1 = Ok [] w1
    /\ destroy w1 = Ok tt w1
    /\ ~ In (World.next_node w0) (World.head w1)
    /\ Forall (fun e => StyleElement.node e <> World.next_node w0)
         (World.document_styles w1).
Proof.
  destruct (destroy_after_life draw options dom0 history w0)
    as (w & w1 & E & E1 & Hpd & Hhd & _).
  exists w, w1. repeat split; try assumption.
  - intros dom. now apply update_released.
  - unfold getMarks. run_monad. now rewrite Hpd.
  - now apply destroy_released.
  - apply Forall_forall. intros e He Hn. apply Hhd. rewrite <- Hn.
    now apply document_styles_in_head.
Qed.

(** C8, refuted as stated: a resize schedules a recomputation, then the
    instance is destroyed. The frame callback is still queued after
    [destroy()], and the next display frame runs it: the queue is emptied and
    the callback resets [timeoutId]. *)
Lemma destroy_leaves_the_frame_pending :
  option_map (fun w => (World.animationFrames w, World.timeoutId w))
    (world_of
       ((new_ScrollMarks Sample.draw Options.empty Sample.one_mark ;;
         step Sample.one_mark window_resize) Sample.browser))
  = Some ([1%nat], Some 1%nat)
  /\ option_map (fun w => (World.animationFrames w, World.timeoutId w))
       (world_of
          ((new_ScrollMarks Sample.draw Options.empty Sample.one_mark ;;
            step Sample.one_mark window_resize ;; destroy) Sample.browser))
     = Some ([1%nat], Some 1%nat)
  /\ option_map (fun w => (World.animationFrames w, World.timeoutId w))
       (world_of
          ((new_ScrollMarks Sample.draw Options.empty Sample.one_mark ;;
            step Sample.one_mark window_resize ;; destroy ;;
            step Sample.one_mark display_frame) Sample.browser))
     = Some ([], None).
Proof.
  split; [vm_compute; reflexivity|].
  split; vm_compute; reflexivity.
Qed.

(** C8, as the code has it. [destroy()] cancels nothing: the frames
    pending before it are pending after it. What it guarantees instead is
    that a callback that fires later finds the instance released: whatever
    events follow, display frames included, they return normally and change
    neither the style elements nor the children of [document.head], and the
    private data stay deleted. *)
Theorem pending_frame_finds_instance_released
    (w0 : World.t) (draw : list nat) (options : Options.t) (dom0 : Dom.t)
    (history : list (Dom.t * Event)) :
  exists w w1,
    (new_ScrollMarks draw options dom0 ;; run history) w0 = Ok tt w
    /\ destroy w = Ok tt w1
    /\ World.animationFrames w1 = World.animationFrames w
    /\ forall later : list (Dom.t * Event),
         exists w2,
           run later w1 = Ok tt w2
           /\ World.privateData w2 = None
           /\ World.elements w2 = World.elements w1
           /\ World.head w2 = World.head w1.
Proof.
  destruct (destroy_after_life draw options dom0 history w0)
    as (w & w1 & E & E1 & Hpd & _ & Haf).
  exists w, w1. repeat split; try assumption.
  intros later.
  apply (run_released (World.elements w1) (World.head w1) later w1).
  now repeat split.
Qed.

(** ** The identifier *)

Lemma substring0_length n : forall s,
  (String.length (String.substring 0 n s) <= n)%nat.
Proof.
  induction n as [|n IH]; intros [|c s]; cbn; try lia.
  specialize (IH s). lia.
Qed.

Lemma substring0_forallb (P : ascii -> bool) n : forall s,
  forallb P (list_ascii_of_string s) = true ->
  forallb P (list_ascii_of_string (String.substring 0 n s)) = true.
Proof.
  induction n as [|n IH]; intros [|c s]; cbn; try reflexivity.
  rewrite !andb_true_iff. intros [Hc Hs]. split; [exact Hc | now apply IH].
Qed.

Lemma digit36_is_base36 d : is_base36 (digit36 d) = true.
Proof.
  unfold digit36.
  assert (H : (d mod 36 < 36)%nat) by (apply Nat.mod_upper_bound; lia).
  revert H. generalize (d mod 36)%nat. intros k H.
  do 36 (destruct k as [|k]; [reflexivity|]). lia.
Qed.

Lemma token_shape draw :
  (String.length (String.substring 2 9 (random_toString36 draw)) <= 9)%nat
  /\ forallb is_base36
       (list_ascii_of_string (String.substring 2 9 (random_toString36 draw)))
     = true.
Proof.
  destruct draw as [|d ds]; [split; cbn; [lia | reflexivity]|].
  unfold random_toString36.
  change (String.substring 2 9 ("0." ++ string_of_list_ascii (map digit36 (d :: ds))))
    with (String.substring 0 9 (string_of_list_ascii (map digit36 (d :: ds)))).
  split; [apply substring0_length|].
  apply substring0_forallb. rewrite list_ascii_of_string_of_list_ascii.
  apply forallb_forall. intros c Hc. apply in_map_iff in Hc.
  destruct Hc as (k & <- & _). apply digit36_is_base36.
Qed.

Lemma getId_active n id config w :
  active n id config w -> getId w = Ok id w.
Proof.
  intros (state & Hpd & _ & _ & Hid). unfold getId. run_monad.
  now rewrite Hpd, Hid.
Qed.

Lemma getId_released w : World.privateData w = None -> getId w = Ok "" w.
Proof. intros H. unfold getId. run_monad. now rewrite H. Qed.

(** C9, as the code has it. Whatever the events of its life, while the
    instance is not destroyed [getId()] answers the identifier the
    constructor generated, which is ["scrollmarks-"] followed by a token of
    characters among [0-9a-z]; once [destroy()] has been called it answers
    the empty string. *)
Theorem getId_fixed_until_destroy
    (w0 : World.t) (draw : list nat) (options : Options.t) (dom0 : Dom.t)
    (history : list (Dom.t * Event)) :
  exists w token,
    (new_ScrollMarks draw options dom0 ;; run history) w0 = Ok tt w
    /\ getId w = Ok (if destroyed_in history then "" else generateId draw) w
    /\ generateId draw = "scrollmarks-" ++ token
    /\ forallb is_base36 (list_ascii_of_string token) = true.
Proof.
  destruct (life draw options dom0 history w0) as (w & E & H).
  exists w, (String.substring 2 9 (random_toString36 draw)).
  destruct (token_shape draw) as [_ Hchars].
  split; [exact E|]. split; [|split; [reflexivity | exact Hchars]].
  destruct (destroyed_in history).
  - apply getId_released, H.
  - eapply getId_active, H.
Qed.

(** C9, refuted as stated: the identifier is not stable over the whole
    life of an instance, since [getId()] answers the empty string after
    [destroy()]. *)
Lemma getId_changes_at_destroy :
  value_of
    ((new_ScrollMarks Sample.draw Options.empty Sample.one_mark ;; getId)
       Sample.browser)
  = Some "scrollmarks-i3"
  /\ value_of
       ((new_ScrollMarks Sample.draw Options.empty Sample.one_mark ;;
         destroy ;; getId) Sample.browser)
     = Some "".
Proof.
  split; [vm_compute; reflexivity | vm_compute; reflexivity].
Qed.

(** The identifier keeps nine digits of the draw: draws that agree on them
    give one identifier. *)
Lemma generateId_keeps_nine_digits :
  [1; 2; 3; 4; 5; 6; 7; 8; 9; 10]%nat <> [1; 2; 3; 4; 5; 6; 7; 8; 9; 11]%nat
  /\ generateId [1; 2; 3; 4; 5; 6; 7; 8; 9; 10]%nat
     = generateId [1; 2; 3; 4; 5; 6; 7; 8; 9; 11]%nat.
Proof. split; [discriminate | vm_compute; reflexivity]. Qed.

(** ** The options *)

Lemma or_else_falsy {A} `{Js.Truthy A} (v : option A) (d : A) :
  Js.truthy v = false -> v ||| d = d.
Proof.
  unfold Js.or_else. destruct v as [x|]; [|reflexivity].
  cbn. now intros ->.
Qed.

(** C10. The constructor stores the configuration [make_config options],
    in which every option whose value is falsy (absent, or the empty string,
    or the number 0) has been replaced by the documented default;
    [scrollbarWidth: 0] becomes 14. *)
Theorem falsy_options_take_defaults
    (w0 : World.t) (draw : list nat) (options : Options.t) (dom : Dom.t) :
  exists w state,
    new_ScrollMarks draw options dom w0 = Ok tt w
    /\ World.privateData w = Some (make_config options, state)
    /\ (Js.truthy (Options.container options) = false ->
        Config.container (make_config options) = documentElement)
    /\ (Js.truthy (Options.trackColor options) = false ->
        Config.trackColor (make_config options) = "#1a1a2e")
    /\ (Js.truthy (Options.thumbColor options) = false ->
        Config.thumbColor (make_config options) = "rgba(255,255,255,0.3)")
    /\ (Js.truthy (Options.selector options) = false ->
        Config.selector (make_config options) = "[data-scroll-color]")
    /\ (Js.truthy (Options.attributeName options) = false ->
        Config.attributeName (make_config options) = "data-scroll-color")
    /\ (Js.truthy (Options.scrollbarWidth options) = false ->
        Config.scrollbarWidth (make_config options) = 14).
Proof.
  destruct (new_ScrollMarks_active draw options dom w0)
    as (w & E & state & Hpd & _).
  exists w, state. split; [exact E|]. split; [exact Hpd|].
  unfold make_config; cbn.
  repeat split; apply or_else_falsy.
Qed.

Lemma falsy_options_take_defaults_witness :
  exists w state,
    new_ScrollMarks Sample.draw Sample.falsy_options Sample.one_mark
      Sample.browser = Ok tt w
    /\ World.privateData w = Some (make_config Sample.falsy_options, state)
    /\ Config.trackColor (make_config Sample.falsy_options) = "#1a1a2e"
    /\ Config.thumbColor (make_config Sample.falsy_options)
       = "rgba(255,255,255,0.3)"
    /\ Config.selector (make_config Sample.falsy_options) = "[data-scroll-color]"
    /\ Config.attributeName (make_config Sample.falsy_options)
       = "data-scroll-color"
    /\ Config.scrollbarWidth (make_config Sample.falsy_options) = 14.
Proof.
  destruct (falsy_options_take_defaults Sample.browser Sample.draw
              Sample.falsy_options Sample.one_mark)
    as (w & state & E & Hpd & _ & Ht & Hh & Hs & Ha & Hw).
  exists w, state. split; [exact E|]. split; [exact Hpd|].
  split; [apply Ht; reflexivity|]. split; [apply Hh; reflexivity|].
  split; [apply Hs; reflexivity|]. split; [apply Ha; reflexivity|].
  apply Hw; reflexivity.
Defined.

(* ================================================================= *)
(** * More on the mark collector *)

Lemma collect_element_spec config dom H el m :
  collect_element config dom H el = Some m <->
  exists c,
    Element.getAttribute el (Config.attributeName config) = Some c
    /\ c <> ""
    /\ ColorMark.start (mark_of dom H el c) < ColorMark.end_ (mark_of dom H el c)
    /\ m = mark_of dom H el c.
Proof.
  unfold collect_element.
  destruct (Element.getAttribute el (Config.attributeName config)) as [c|];
    cbn [Js.truthy Js.truthy_option negb].
  - destruct c as [|a c]; cbn [Js.truthy_string negb].
    + split; [discriminate|]. intros (c & [= <-] & Hc & _). congruence.
    + fold (scroll_offset dom). fold (document_top dom el).
      destruct (Js.lt _ _) eqn:E.
      * split.
        -- intros [= <-]. exists (String a c).
           repeat split; try congruence. apply lt_true_iff in E. exact E.
        -- intros (c' & [= <-] & _ & _ & ->). reflexivity.
      * split; [discriminate|].
        intros (c' & [= <-] & _ & Hlt & _). apply lt_true_iff in Hlt.
        unfold mark_of in Hlt; cbn in Hlt. congruence.
  - split; [discriminate|]. intros (c & [=] & _).
Qed.

Lemma percent_lt (H a b : Q) :
  0 < H -> (a / H * 100 < b / H * 100 <-> a < b).
Proof.
  intros HH.
  assert (Hc : 0 < 100 / H) by (apply Qlt_shift_div_l; lra).
  assert (Ea : a / H * 100 == a * (100 / H)) by (field; lra).
  assert (Eb : b / H * 100 == b * (100 / H)) by (field; lra).
  rewrite Ea, Eb. split; intros Hlt.
  - apply Qmult_lt_r in Hlt; assumption.
  - apply Qmult_lt_r; assumption.
Qed.

Lemma percent_pos (H a : Q) : 0 < H -> (0 < a / H * 100 <-> 0 < a).
Proof.
  intros HH. rewrite <- (percent_lt H 0 a HH).
  assert (E : 0 / H * 100 == 0) by (field; lra). now rewrite E.
Qed.

Lemma percent_lt_100 (H a : Q) : 0 < H -> (a / H * 100 < 100 <-> a < H).
Proof.
  intros HH. rewrite <- (percent_lt H a H HH).
  assert (E : H / H * 100 == 100) by (field; lra). now rewrite E.
Qed.

(** The clamped interval is not empty exactly when the element has a
    positive height and overlaps the page. *)
Lemma mark_of_nonempty dom H el c :
  0 < H ->
  (ColorMark.start (mark_of dom H el c) < ColorMark.end_ (mark_of dom H el c)
   <-> 0 < rect_height (Element.getBoundingClientRect el)
       /\ document_top dom el < H
       /\ 0 < document_top dom el
              + rect_height (Element.getBoundingClientRect el)).
Proof.
  intros HH. unfold mark_of; cbn.
  set (t := document_top dom el).
  set (h := rect_height (Element.getBoundingClientRect el)).
  rewrite Q.max_lub_lt_iff, !Q.min_glb_lt_iff.
  rewrite (percent_pos H (t + h) HH), (percent_lt_100 H t HH),
    (percent_lt H t (t + h) HH).
  split.
  - intros ((_ & H1) & H2 & H3). repeat split; lra.
  - intros (H1 & H2 & H3). repeat split; lra.
Qed.

Lemma In_forEach_push {A B} (f : A -> option B) (l : list A) (b : B) :
  In b (Js.forEach_push f l) <-> exists a, In a l /\ f a = Some b.
Proof.
  rewrite forEach_push_flat_map, in_flat_map. split.
  - intros (a & Ha & Hb). exists a. split; [exact Ha|].
    destruct (f a); [|contradiction]. destruct Hb as [->|[]]. reflexivity.
  - intros (a & Ha & Hb). exists a. split; [exact Ha|].
    rewrite Hb. now left.
Qed.

Lemma forEach_push_length {A B} (f : A -> option B) (l : list A) :
  (List.length (Js.forEach_push f l) <= List.length l)%nat.
Proof.
  rewrite forEach_push_flat_map. induction l as [|a l IH]; cbn; [lia|].
  rewrite length_app. destruct (f a); cbn; lia.
Qed.

Lemma le_false_pos (x : Q) : Js.le x 0 = false <-> 0 < x.
Proof.
  unfold Js.le. rewrite negb_false_iff. apply lt_true_iff.
Qed.

(** X1. Every mark the collector returns comes from a matched element that
    carries a color attribute which is not empty, has a positive height
    and overlaps the page (its top above the page's bottom, its bottom
    below the page's top); the color of the mark is the trimmed attribute.
    There is at most one mark per matched element, and none at all unless
    the total height is positive. *)
Theorem collected_marks_come_from_visible_colored_elements
    (config : Config.t) (dom : Dom.t) :
  Forall
    (fun m =>
       exists el c,
         In el (Dom.querySelectorAll dom (Config.selector config))
         /\ Element.getAttribute el (Config.attributeName config) = Some c
         /\ c <> ""
         /\ ColorMark.color m = Js.trim c
         /\ 0 < rect_height (Element.getBoundingClientRect el)
         /\ document_top dom el < _getScrollHeight dom
         /\ 0 < document_top dom el
                + rect_height (Element.getBoundingClientRect el))
    (collectMarks config dom)
  /\ (List.length (collectMarks config dom)
      <= List.length (Dom.querySelectorAll dom (Config.selector config)))%nat
  /\ (collectMarks config dom = [] \/ 0 < _getScrollHeight dom).
Proof.
  destruct (Js.le (_getScrollHeight dom) 0) eqn:E.
  - assert (Hnil : collectMarks config dom = []).
    { apply Permutation_nil. apply Permutation_sym.
      pose proof (collectMarks_perm config dom) as Hp.
      unfold discovered_marks in Hp. now rewrite E in Hp. }
    rewrite Hnil. split; [constructor|]. split; [cbn; lia | now left].
  - pose proof (proj1 (le_false_pos _) E) as HH. split; [|split].
    + apply Forall_forall. intros m Hm.
      eapply Permutation_in in Hm;
        [|apply Permutation_sym, collectMarks_perm].
      unfold discovered_marks in Hm. rewrite E in Hm.
      apply In_forEach_push in Hm. destruct Hm as (el & Hel & Hm).
      apply collect_element_spec in Hm.
      destruct Hm as (c & Hc & Hne & Hlt & ->).
      apply (mark_of_nonempty dom _ el c HH) in Hlt.
      destruct Hlt as (H1 & H2 & H3). exists el, c.
      split; [exact Hel|]. split; [exact Hc|]. split; [exact Hne|].
      split; [reflexivity|]. split; [exact H1|]. split; [exact H2 | exact H3].
    + rewrite <- (Permutation_length (collectMarks_perm config dom)).
      unfold discovered_marks. rewrite E. apply forEach_push_length.
    + now right.
Qed.

(** ** The colors are trimmed *)

(** How [Js.strip] runs: it takes off one white-space character of one, two
    or three bytes after the other, and stops at a text that begins with
    none. *)
Lemma strip_cases (bw : bool) (P : list ascii -> list ascii -> Prop) :
  (forall a l, Js.ws1 a = true -> P l (Js.strip bw l) ->
     P (a :: l) (Js.strip bw l)) ->
  (forall a b l, Js.ws2 bw a b = true -> P l (Js.strip bw l) ->
     P (a :: b :: l) (Js.strip bw l)) ->
  (forall a b c l, Js.ws3 bw a b c = true -> P l (Js.strip bw l) ->
     P (a :: b :: c :: l) (Js.strip bw l)) ->
  (forall l, Js.begins_with_white_space bw l = false -> P l l) ->
  forall l, P l (Js.strip bw l).
Proof.
  intros H1 H2 H3 H0 l.
  assert (H : forall n l, (List.length l <= n)%nat -> P l (Js.strip bw l)).
  { clear l. induction n as [|n IH]; intros l Hl.
    - destruct l; [|cbn in Hl; lia]. now apply H0.
    - destruct l as [|a l]; [now apply H0|]. cbn in Hl. cbn [Js.strip].
      destruct (Js.ws1 a) eqn:E1; [apply H1; [exact E1 | apply IH; lia]|].
      destruct l as [|b l]; [apply H0; cbn; now rewrite E1|]. cbn in Hl.
      destruct (Js.ws2 bw a b) eqn:E2; [apply H2; [exact E2 | apply IH; lia]|].
      destruct l as [|c l]; [apply H0; cbn; now rewrite E1, E2|]. cbn in Hl.
      destruct (Js.ws3 bw a b c) eqn:E3; [apply H3; [exact E3 | apply IH; lia]|].
      apply H0. cbn. now rewrite E1, E2, E3. }
  now apply (H (List.length l)).
Qed.

Lemma strip_begins bw l :
  Js.begins_with_white_space bw (Js.strip bw l) = false.
Proof.
  apply (strip_cases bw
           (fun _ r => Js.begins_with_white_space bw r = false)); auto.
Qed.

Lemma strip_suffix bw l : exists p, l = (p ++ Js.strip bw l)%list.
Proof.
  apply (strip_cases bw (fun l r => exists p, l = (p ++ r)%list)).
  - intros a l0 _ [p Hp]. exists (a :: p). cbn. now rewrite <- Hp.
  - intros a b l0 _ [p Hp]. exists (a :: b :: p). cbn. now rewrite <- Hp.
  - intros a b c l0 _ [p Hp]. exists (a :: b :: c :: p). cbn.
    now rewrite <- Hp.
  - intros l0 _. now exists [].
Qed.

Lemma strip_fixed bw l :
  Js.begins_with_white_space bw l = false -> Js.strip bw l = l.
Proof.
  destruct l as [|a [|b [|c l]]]; cbn; intros H;
    repeat (apply orb_false_elim in H; destruct H as [? H]);
    repeat match goal with E : _ = false |- _ => rewrite E; clear E end;
    try rewrite H; reflexivity.
Qed.

(** A text that begins with white space still does when it goes on. *)
Lemma begins_app bw p q :
  Js.begins_with_white_space bw p = true ->
  Js.begins_with_white_space bw (p ++ q) = true.
Proof.
  destruct p as [|a [|b [|c p]]]; cbn; try discriminate; intros H.
  - rewrite orb_false_r in H. now rewrite H.
  - destruct (Js.ws1 a); [reflexivity|]. cbn in *.
    rewrite orb_false_r in H. now rewrite H.
  - exact H.
Qed.

Lemma trim_chars_shape l :
  let t := rev (Js.strip true (rev (Js.strip false l))) in
  Js.begins_with_white_space false t = false
  /\ Js.begins_with_white_space true (rev t) = false.
Proof.
  cbn zeta. split.
  - destruct (strip_suffix true (rev (Js.strip false l))) as [p Hp].
    pose proof (strip_begins false l) as Hh.
    apply (f_equal (@rev ascii)) in Hp.
    rewrite rev_involutive, rev_app_distr in Hp.
    destruct (Js.begins_with_white_space false
                (rev (Js.strip true (rev (Js.strip false l))))) eqn:E;
      [|reflexivity].
    apply (begins_app false _ (rev p)) in E. rewrite <- Hp in E. congruence.
  - rewrite rev_involutive. apply strip_begins.
Qed.

Lemma trim_no_outer_white_space s : no_outer_white_space (Js.trim s).
Proof.
  unfold no_outer_white_space, Js.trim.
  rewrite list_ascii_of_string_of_list_ascii. apply trim_chars_shape.
Qed.

Lemma trim_idempotent s : Js.trim (Js.trim s) = Js.trim s.
Proof.
  unfold Js.trim.
  rewrite list_ascii_of_string_of_list_ascii.
  destruct (trim_chars_shape (list_ascii_of_string s)) as [H1 H2].
  cbn zeta in H1, H2. rewrite (strip_fixed _ _ H1), (strip_fixed _ _ H2).
  rewrite rev_involutive. reflexivity.
Qed.

(** X3. Every color the collector stores is trimmed: it neither begins nor
    ends with a white-space character (of ECMAScript's [WhiteSpace] and
    [LineTerminator], the ones beyond ASCII included), and trimming it
    again changes nothing. *)
Theorem collected_colors_are_trimmed (config : Config.t) (dom : Dom.t) :
  Forall
    (fun m =>
       no_outer_white_space (ColorMark.color m)
       /\ Js.trim (ColorMark.color m) = ColorMark.color m)
    (collectMarks config dom).
Proof.
  eapply Permutation_Forall; [apply collectMarks_perm|].
  unfold discovered_marks. destruct (Js.le _ _); [constructor|].
  apply forEach_push_Forall. intros el m Hm.
  apply collect_element_spec in Hm. destruct Hm as (c & _ & _ & _ & ->).
  cbn. split; [apply trim_no_outer_white_space | apply trim_idempotent].
Qed.

(* ================================================================= *)
(** * More on the gradient builder *)

(** X5. The gradient loses no mark and invents no color: the band of every
    mark (its color from its [start] to its [end]) is among the bands, every
    band has the track color or the color of a mark, and [n] marks give
    between [n] and [2n + 1] bands. *)
Theorem gradient_keeps_every_mark (trackColor : string) (marks : list ColorMark.t) :
  Forall
    (fun m => In (band_of m) (segments (gradient_stops trackColor marks)))
    marks
  /\ Forall
       (fun b => seg_color b = trackColor
                 \/ In (seg_color b) (map ColorMark.color marks))
       (segments (gradient_stops trackColor marks))
  /\ (List.length marks
      <= List.length (segments (gradient_stops trackColor marks))
      <= 2 * List.length marks + 1)%nat.
Proof. rewrite gradient_bands. apply bands_from_keep. Qed.

(* ================================================================= *)
(** * More on the lifecycle *)

(** ** What a computation leaves alone *)

Lemma keeps_ret {A B} (f : World.t -> A) (b : B) : keeps f (ret b).
Proof. intros w b' w' E. inversion E; subst. reflexivity. Qed.

Lemma keeps_throw {A B} (f : World.t -> A) e : keeps f (@throw B e).
Proof. intros w b w' [=]. Qed.

Lemma keeps_gets {A B} (f : World.t -> A) (g : World.t -> B) : keeps f (gets g).
Proof. intros w b' w' E. inversion E; subst. reflexivity. Qed.

Lemma keeps_modify {A} (f : World.t -> A) g :
  (forall w, f (g w) = f w) -> keeps f (modify g).
Proof. intros H w b w' E. inversion E; subst. apply H. Qed.

Lemma keeps_bind {A B C} (f : World.t -> A) (c : M B) (k : B -> M C) :
  keeps f c -> (forall b, keeps f (k b)) -> keeps f (bind c k).
Proof.
  intros Hc Hk w x w' E. unfold bind in E.
  destruct (c w) as [b w1|] eqn:E1; [|discriminate].
  rewrite (Hk b w1 x w' E). exact (Hc w b w1 E1).
Qed.

Lemma keeps_when {A} (f : World.t -> A) b c : keeps f c -> keeps f (when b c).
Proof. destruct b; [trivial | intros _; apply keeps_ret]. Qed.

Lemma keeps_forEach {A B} (f : World.t -> A) (g : B -> M unit) l :
  (forall b, keeps f (g b)) -> keeps f (forEach g l).
Proof.
  intros H. induction l as [|b l IH]; cbn [forEach].
  - apply keeps_ret.
  - apply keeps_bind; [apply H | intros _; exact IH].
Qed.

Lemma keeps_assign_state {A} (f : World.t -> A) g :
  (forall v w, f (World.set_privateData v w) = f w) ->
  keeps f (assign_state g).
Proof.
  intros H. apply keeps_modify. intros w.
  destruct (World.privateData w) as [[c s]|]; [apply H | reflexivity].
Qed.

Lemma keeps_update_element {A} (f : World.t -> A) n g :
  (forall v w, f (World.set_elements v w) = f w) ->
  keeps f (update_element n g).
Proof. intros H. apply keeps_modify. intros w. apply H. Qed.

Ltac keeps_step :=
  first
    [ apply keeps_ret
    | apply keeps_throw
    | apply keeps_gets
    | apply keeps_assign_state; intros ? [? ? ? ? ? ? ? ? ?]; reflexivity
    | apply keeps_update_element; intros ? [? ? ? ? ? ? ? ? ?]; reflexivity
    | apply keeps_modify; intros [? ? ? ? ? ? ? ? ?]; reflexivity
    | apply keeps_when
    | apply keeps_forEach; intros ?
    | apply keeps_bind; [|intros ?]
    | match goal with
      | |- keeps _ (match ?x with _ => _ end) => destruct x
      end ].

Ltac keeps_all := repeat keeps_step.

Lemma update_keeps_schedule dom : keeps schedule (update dom).
Proof.
  unfold update, _collectMarks, _buildGradient, _applyStyles,
    destructure_privateData. keeps_all.
Qed.

Lemma update_keeps_head dom : keeps World.head (update dom).
Proof.
  unfold update, _collectMarks, _buildGradient, _applyStyles,
    destructure_privateData. keeps_all.
Qed.

Lemma update_keeps_listeners dom : keeps World.resizeListeners (update dom).
Proof.
  unfold update, _collectMarks, _buildGradient, _applyStyles,
    destructure_privateData. keeps_all.
Qed.

Lemma observeElements_keeps {A} (f : World.t -> A) dom :
  (forall v w, f (World.set_privateData v w) = f w) ->
  keeps f (_observeElements dom).
Proof.
  intros H. unfold _observeElements, destructure_privateData.
  apply keeps_bind; [keeps_all | intros [c s]].
  destruct (State.resizeObserver s); [|apply keeps_ret].
  apply keeps_forEach. intros el. now apply keeps_assign_state.
Qed.

Lemma debounced_keeps_page : keeps page_state debounced.
Proof. unfold debounced, cancelAnimationFrame, requestAnimationFrame. keeps_all. Qed.

Lemma debounced_keeps_listeners : keeps World.resizeListeners debounced.
Proof. unfold debounced, cancelAnimationFrame, requestAnimationFrame. keeps_all. Qed.

Lemma destroy_keeps_schedule : keeps schedule destroy.
Proof. unfold destroy, remove_from_parent. keeps_all. Qed.

Lemma destroy_keeps_elements : keeps World.elements destroy.
Proof. unfold destroy, remove_from_parent. keeps_all. Qed.


Lemma preserves_and_keeps {A} P (f : World.t -> A) (v : A) c :
  preserves P c -> keeps f c -> preserves (fun w => P w /\ f w = v) c.
Proof.
  intros Hp Hk w [HP Hf]. destruct (Hp w HP) as (w' & E & HP').
  exists w'. split; [exact E|]. split; [exact HP'|].
  rewrite (Hk w tt w' E). exact Hf.
Qed.

(** ** What returns and what raises *)

Lemma preserves_of_keeps {A} (P : World.t -> Prop) (f : World.t -> A) c :
  (forall w w', f w' = f w -> P w -> P w') ->
  (forall w, P w -> exists w', c w = Ok tt w') ->
  keeps f c ->
  preserves P c.
Proof.
  intros HP Ht Hk w H. destruct (Ht w H) as (w' & E). exists w'.
  split; [exact E|]. apply (HP w w'); [|exact H]. exact (Hk w tt w' E).
Qed.

Lemma update_total dom w : exists w', update dom w = Ok tt w'.
Proof.
  open_world w. unfold update. run_monad.
  destruct w_pd as [[config state]|]; [|eexists; reflexivity].
  destruct state as [id se ro mo dead bu marks]; cbn.
  destruct dead; [eexists; reflexivity|].
  destruct (Js.le (_getScrollHeight dom) (_getViewportHeight dom)).
  - destruct se as [n|]; unfold update_element; run_monad;
      eexists; reflexivity.
  - unfold _collectMarks, _buildGradient, _applyStyles, assign_state,
      destructure_privateData. run_monad.
    destruct se as [n|]; unfold update_element; run_monad;
      eexists; reflexivity.
Qed.

Lemma destroy_total w : exists w', destroy w = Ok tt w'.
Proof.
  open_world w. unfold destroy, assign_state, remove_from_parent. run_monad.
  destruct w_pd as [[config state]|]; [|eexists; reflexivity].
  destruct state as [id se ro mo dead bu marks]; cbn.
  destruct dead; [eexists; reflexivity|].
  destruct se, ro, mo, bu; cbn; eexists; reflexivity.
Qed.

Lemma debounced_total w : exists w', debounced w = Ok tt w'.
Proof.
  open_world w. unfold debounced, cancelAnimationFrame,
    requestAnimationFrame. run_monad.
  destruct w_tid as [[|h]|]; cbn; eexists; reflexivity.
Qed.

Lemma alive_page w w' : page_state w' = page_state w -> alive w -> alive w'.
Proof. unfold alive, page_state. intros [= -> _ _]. trivial. Qed.

Lemma debounced_alive : preserves alive debounced.
Proof.
  apply (preserves_of_keeps alive page_state).
  - apply alive_page.
  - intros w _. apply debounced_total.
  - apply debounced_keeps_page.
Qed.

Lemma observeElements_alive dom : preserves alive (_observeElements dom).
Proof.
  intros w H. unfold _observeElements, destructure_privateData.
  unfold bind at 1. unfold bind at 1. unfold gets at 1.
  destruct (World.privateData w) as [[config state]|] eqn:Hpd;
    [|now elim H]. cbn [ret].
  destruct (State.resizeObserver state).
  - apply preserves_forEach; [|exact H].
    intros el w' H'. unfold assign_state, modify.
    eexists; split; [reflexivity|]. unfold alive in *.
    destruct (World.privateData w') as [[c s]|] eqn:E'; [|now elim H'].
    destruct w'; cbn. discriminate.
  - now exists w.
Qed.


(** X7. The private methods are not guarded: once the instance is
    destroyed, a call of [_collectMarks], [_buildGradient], [_applyStyles],
    [_observeElements] or [_init] raises a [TypeError], where [update],
    [getMarks], [getId] and [destroy] return. *)
Theorem private_methods_raise_after_destroy
    (w0 : World.t) (draw : list nat) (options : Options.t) (dom0 : Dom.t)
    (history : list (Dom.t * Event))
    (dom : Dom.t) (marks : list ColorMark.t) (gradient : string) :
  exists w w1,
    (new_ScrollMarks draw options dom0 ;; run history) w0 = Ok tt w
    /\ destroy w = Ok tt w1
    /\ _collectMarks dom w1 = Throw TypeError
    /\ _buildGradient marks w1 = Throw TypeError
    /\ _applyStyles gradient w1 = Throw TypeError
    /\ _observeElements dom w1 = Throw TypeError
    /\ _init dom w1 = Throw TypeError.
Proof.
  destruct (destroy_after_life draw options dom0 history w0)
    as (w & w1 & E & E1 & Hpd & _).
  exists w, w1. split; [exact E|]. split; [exact E1|].
  unfold _collectMarks, _buildGradient, _applyStyles, _observeElements,
    _init, destructure_privateData, bind, gets, throw.
  rewrite Hpd. repeat split.
Qed.

(** ** What [update] writes *)

Lemma update_effect n id config dom w :
  active n id config w ->
  exists w',
    update dom w = Ok tt w'
    /\ if Js.le (_getScrollHeight dom) (_getViewportHeight dom) then
         World.elements w' = write_text n "" (World.elements w)
         /\ value_of (getMarks w') = value_of (getMarks w)
       else
         World.elements w'
         = write_text n
             (style_text config (buildGradient config (collectMarks config dom)))
             (World.elements w)
         /\ getMarks w' = Ok (collectMarks config dom) w'.
Proof.
  intros (state & Hpd & Hd & Hse & Hid). open_world w. subst w_pd.
  destruct state as [id' se ro mo dead bu marks]; cbn in *. subst.
  unfold update, getMarks. run_monad.
  destruct (Js.le (_getScrollHeight dom) (_getViewportHeight dom)).
  - unfold update_element. run_monad.
    eexists; split; [reflexivity|]. split; reflexivity.
  - unfold _collectMarks, _buildGradient, _applyStyles, assign_state,
      destructure_privateData, update_element. run_monad.
    eexists; split; [reflexivity|]. split; reflexivity.
Qed.

(** ** What the constructor leaves *)

Lemma bind_inv {A B} (c : M A) (k : A -> M B) w b w' :
  bind c k w = Ok b w' -> exists a w1, c w = Ok a w1 /\ k a w1 = Ok b w'.
Proof.
  unfold bind. destruct (c w) as [a w1|]; [|discriminate].
  intros E. now exists a, w1.
Qed.

Lemma keeps_assign_state_observers g :
  (forall s, State.id (g s) = State.id s) ->
  (forall s, State.styleElement (g s) = State.styleElement s) ->
  (forall s, State.isDestroyed (g s) = State.isDestroyed s) ->
  (forall s, State.boundUpdate (g s) = State.boundUpdate s) ->
  (forall s, State.marks (g s) = State.marks s) ->
  keeps outside_observers (assign_state g).
Proof.
  intros H1 H2 H3 H4 H5. apply keeps_modify. intros w.
  destruct w as [[[c s]|] ? ? ? ? ? ? ? ?]; [|reflexivity].
  unfold outside_observers, schedule; cbn.
  now rewrite H1, H2, H3, H4, H5.
Qed.

Lemma observeElements_keeps_outside dom :
  keeps outside_observers (_observeElements dom).
Proof.
  unfold _observeElements, destructure_privateData.
  apply keeps_bind; [keeps_all | intros [c s]].
  destruct (State.resizeObserver s); [|apply keeps_ret].
  apply keeps_forEach. intros el.
  apply keeps_assign_state_observers; intros [? ? [?|] ? ? ? ?]; reflexivity.
Qed.

Lemma new_ScrollMarks_effect draw options dom w0 :
  exists w,
    new_ScrollMarks draw options dom w0 = Ok tt w
    /\ active (World.next_node w0) (generateId draw) (make_config options) w
    /\ World.elements w
       = write_text (World.next_node w0) (rendered_text (make_config options) dom)
           (fresh_style_element (World.next_node w0) (generateId draw)
              :: map (fun e =>
                        if Nat.eqb (StyleElement.node e) (World.next_node w0)
                        then StyleElement.setAttribute "data-scrollmarks" ""
                               (StyleElement.set_id (generateId draw) e)
                        else e)
                   (World.elements w0))
    /\ World.head w
       = (filter (fun m => negb (Nat.eqb m (World.next_node w0))) (World.head w0)
          ++ [World.next_node w0])%list
    /\ schedule w = (None, World.animationFrames w0, World.next_handle w0)
    /\ World.resizeListeners w
       = (World.resizeListeners w0 ++ [debounced_update])%list
    /\ getMarks w
       = Ok (if Js.le (_getScrollHeight dom) (_getViewportHeight dom)
             then [] else collectMarks (make_config options) dom) w.
Proof.
  destruct (new_ScrollMarks_active draw options dom w0) as (w & E & Ha).
  exists w. split; [exact E|]. split; [exact Ha|].
  unfold new_ScrollMarks, _init in E.
  do 10 (erewrite bind_Ok in E by reflexivity; cbv beta iota in E).
  apply bind_inv in E. destruct E as ([] & wa & Ea & E).
  apply bind_inv in E. destruct E as ([] & w1 & E1 & E).
  assert (Hk1 : keeps outside_observers
                  (assign_state (State.set_resizeObserver (Some [])) ;;
                   _observeElements dom)).
  { apply keeps_bind; [|intros _; apply observeElements_keeps_outside].
    apply keeps_assign_state_observers; intros []; reflexivity. }
  assert (Hk2 : keeps outside_observers
                  (assign_state (State.set_mutationObserver (Some true))))
    by (apply keeps_assign_state_observers; intros []; reflexivity).
  apply (keeps_when outside_observers _ _ Hk1) in Ea.
  apply (keeps_when outside_observers _ _ Hk2) in E1.
  rewrite Ea in E1. clear Ea Hk1 Hk2 wa.
  apply bind_inv in E. destruct E as ([] & w2 & E2 & E).
  injection E2 as E2.
  assert (Ha2 : active (World.next_node w0) (generateId draw)
                  (make_config options) w2
                /\ World.elements w2
                   = fresh_style_element (World.next_node w0) (generateId draw)
                     :: map (fun e =>
                          if Nat.eqb (StyleElement.node e) (World.next_node w0)
                          then StyleElement.setAttribute "data-scrollmarks" ""
                                 (StyleElement.set_id (generateId draw) e)
                          else e)
                         (World.elements w0)
                /\ World.head w2
                   = (filter (fun m => negb (Nat.eqb m (World.next_node w0)))
                        (World.head w0) ++ [World.next_node w0])%list
                /\ schedule w2
                   = (None, World.animationFrames w0, World.next_handle w0)
                /\ World.resizeListeners w2
                   = (World.resizeListeners w0 ++ [debounced_update])%list
                /\ value_of (getMarks w2) = Some []).
  { subst w2. clear E Ha.
    destruct w1 as [pd1 els1 hd1 nn1 tid1 afs1 nh1 rl1 pf1].
    destruct w0 as [pd0 els0 hd0 nn0 tid0 afs0 nh0 rl0 pf0].
    unfold outside_observers, schedule in E1. cbn in E1.
    rewrite Nat.eqb_refl in E1. cbn in E1.
    injection E1 as Eels Ehd Etid Eafs Enh Erl Enn Epd.
    destruct pd1 as [[c1 s1]|]; [|discriminate].
    cbn in Epd. injection Epd as Ec Eid Ese Edead Ebu Emarks.
    subst. cbn. unfold getMarks, active. run_monad.
    rewrite Nat.eqb_refl. cbn. rewrite map_map.
    repeat split.
    - exists s1. repeat split; assumption.
    - f_equal. apply map_ext. intros e.
      destruct (Nat.eqb (StyleElement.node e) nn0) eqn:En; cbn.
      all: rewrite ?En; reflexivity.
    - now rewrite Emarks. }
  destruct Ha2 as (Ha2 & Hels & Hhd & Hs & Hrl & Hm).
  destruct (update_effect _ _ _ dom w2 Ha2) as (w' & E' & Heff).
  assert (w' = w) by congruence. subst w'.
  rewrite <- (update_keeps_head dom w2 tt w E) in Hhd.
  rewrite <- (update_keeps_schedule dom w2 tt w E) in Hs.
  rewrite <- (update_keeps_listeners dom w2 tt w E) in Hrl.
  repeat split; try assumption.
  - unfold rendered_text. rewrite <- Hels.
    destruct (Js.le _ _); apply Heff.
  - destruct (Js.le _ _); [|apply Heff].
    destruct Heff as [_ Hm']. rewrite Hm in Hm'.
    pose proof (getMarks_same_world w) as Hw.
    destruct (getMarks w) as [ms w'|]; cbn in *; [|discriminate].
    congruence.
Qed.

(** A second [update()] on the same page finds nothing to change. *)
Lemma update_settles dom w w1 :
  update dom w = Ok tt w1 -> update dom w1 = Ok tt w1.
Proof.
  assert (H : exists w', update dom w = Ok tt w' /\ update dom w' = Ok tt w').
  { open_world w. unfold update. run_monad.
    destruct w_pd as [[config state]|]; [|eexists; split; reflexivity].
    destruct state as [id se ro mo dead bu marks]; cbn.
    destruct dead; [eexists; split; reflexivity|].
    destruct (Js.le (_getScrollHeight dom) (_getViewportHeight dom)).
    - destruct se as [n|]; unfold update_element; run_monad.
      + eexists; split; [reflexivity|]. cbn.
        now rewrite update_element_twice.
      + eexists; split; reflexivity.
    - unfold _collectMarks, _buildGradient, _applyStyles, assign_state,
        destructure_privateData. run_monad.
      destruct se as [n|]; unfold update_element; run_monad.
      + eexists; split; [reflexivity|]. cbn.
        now rewrite update_element_twice.
      + eexists; split; reflexivity. }
  destruct H as (w' & H1 & H2). intros E.
  assert (w' = w1) by congruence. now subst w'.
Qed.

(** The last thing the constructor does is an [update()]. *)
Lemma new_ScrollMarks_ends_with_update draw options dom w0 w :
  new_ScrollMarks draw options dom w0 = Ok tt w ->
  exists w2, update dom w2 = Ok tt w.
Proof.
  intros E. unfold new_ScrollMarks, _init in E.
  do 10 (erewrite bind_Ok in E by reflexivity; cbv beta iota in E).
  apply bind_inv in E. destruct E as ([] & wa & _ & E).
  apply bind_inv in E. destruct E as ([] & w1 & _ & E).
  apply bind_inv in E. destruct E as ([] & w2 & _ & E).
  now exists w2.
Qed.

(** X9. On a page without style elements, when [new ScrollMarks(options)]
    returns it has injected exactly one: its [id] is the identifier
    [getId()] answers, it carries the attribute [data-scrollmarks] and
    [getElementById] finds it. The first [update()] has already run: one
    more on the same page changes nothing. One resize listener is
    registered and no frame is pending. *)
Theorem constructor_injects_one_style_element
    (p : Platform) (draw : list nat) (options : Options.t) (dom : Dom.t)
    (w : World.t) :
  new_ScrollMarks draw options dom (World.initial p) = Ok tt w ->
  (exists e,
     World.document_styles w = [e]
     /\ StyleElement.id e = generateId draw
     /\ StyleElement.attributes e = [("data-scrollmarks", "")]
     /\ World.getElementById (generateId draw) w = Some e)
  /\ getId w = Ok (generateId draw) w
  /\ update dom w = Ok tt w
  /\ World.resizeListeners w = [debounced_update]
  /\ World.animationFrames w = [].
Proof.
  intros E.
  destruct (new_ScrollMarks_effect draw options dom (World.initial p))
    as (w' & E' & Ha & Hels & Hhd & Hs & Hrl & Hm).
  assert (w' = w) by congruence. subst w'.
  assert (Hd : World.document_styles w
               = [ StyleElement.set_textContent
                     (rendered_text (make_config options) dom)
                     (fresh_style_element 0 (generateId draw)) ]).
  { unfold World.document_styles. rewrite Hels, Hhd. reflexivity. }
  split.
  { eexists. split; [exact Hd|]. split; [reflexivity|].
    split; [reflexivity|].
    unfold World.getElementById. rewrite Hd. cbn.
    now rewrite String.eqb_refl. }
  split; [exact (getId_active _ _ _ _ Ha)|]. split.
  { destruct (new_ScrollMarks_ends_with_update _ _ _ _ _ E) as (w2 & E2).
    exact (update_settles dom w2 w E2). }
  split; [exact Hrl|]. unfold schedule in Hs. now injection Hs.
Qed.

Lemma constructor_injects_one_style_element_witness :
  new_ScrollMarks Sample.draw Options.empty Sample.one_mark Sample.browser
  = Ok tt Sample.started
  /\ World.getElementById "scrollmarks-i3" Sample.started
     = nth_error (World.document_styles Sample.started) 0
  /\ update Sample.one_mark Sample.started = Ok tt Sample.started.
Proof.
  assert (E : new_ScrollMarks Sample.draw Options.empty Sample.one_mark
                Sample.browser = Ok tt Sample.started)
    by (vm_compute; reflexivity).
  destruct (constructor_injects_one_style_element _ _ _ _ _ E)
    as ((e & Hd & _ & _ & Hg) & _ & Hu & _).
  split; [exact E|]. split; [|exact Hu].
  change (generateId Sample.draw) with "scrollmarks-i3" in Hg.
  rewrite Hg, Hd. reflexivity.
Defined.

(** X10. The configuration is fixed at construction: whatever calls and
    notifications follow, as long as [destroy()] is not among them, the
    private data hold the configuration computed from the options, the
    identifier generated by the constructor and the style element it
    created, and the instance is not marked destroyed. *)
Theorem configuration_never_changes
    (w0 : World.t) (draw : list nat) (options : Options.t) (dom0 : Dom.t)
    (history : list (Dom.t * Event)) :
  destroyed_in history = false ->
  exists w state,
    (new_ScrollMarks draw options dom0 ;; run history) w0 = Ok tt w
    /\ World.privateData w = Some (make_config options, state)
    /\ State.id state = generateId draw
    /\ State.styleElement state = Some (World.next_node w0)
    /\ State.isDestroyed state = false.
Proof.
  intros Hd. destruct (life draw options dom0 history w0) as (w & E & H).
  rewrite Hd in H. destruct H as (state & Hpd & Hdead & Hse & Hid).
  exists w, state. now repeat split.
Qed.

Lemma configuration_never_changes_witness :
  destroyed_in Sample.busy_history = false
  /\ exists w state,
       (new_ScrollMarks Sample.draw Sample.falsy_options Sample.one_mark ;;
        run Sample.busy_history) Sample.browser = Ok tt w
       /\ World.privateData w = Some (make_config Sample.falsy_options, state)
       /\ State.id state = generateId Sample.draw
       /\ State.styleElement state = Some 0%nat
       /\ State.isDestroyed state = false.
Proof.
  assert (H : destroyed_in Sample.busy_history = false) by reflexivity.
  split; [exact H|].
  exact (configuration_never_changes Sample.browser Sample.draw
           Sample.falsy_options Sample.one_mark Sample.busy_history H).
Defined.

(** ** The scheduler *)

Lemma coalesced_schedule w w' :
  schedule w' = schedule w -> coalesced w -> coalesced w'.
Proof. unfold coalesced, schedule. intros [= -> -> ->]. trivial. Qed.

Lemma preserves_conj P Q c :
  preserves P c -> preserves Q c -> preserves (fun w => P w /\ Q w) c.
Proof.
  intros HP HQ w [Hp Hq]. destruct (HP w Hp) as (w' & E & Hp').
  destruct (HQ w Hq) as (w'' & E' & Hq').
  assert (w'' = w') by congruence. subst w''. now exists w'.
Qed.

(** A trigger replaces the pending frame, if any, by a new one. *)
Lemma debounced_effect w :
  coalesced w ->
  exists w',
    debounced w = Ok tt w'
    /\ coalesced w'
    /\ World.timeoutId w' = Some (World.next_handle w)
    /\ World.animationFrames w' = [World.next_handle w].
Proof.
  intros [Hn H]. open_world w. unfold debounced, cancelAnimationFrame,
    requestAnimationFrame. run_monad.
  destruct w_tid as [h|].
  - destruct H as (-> & H1 & H2). destruct h as [|h]; [lia|]. cbn.
    rewrite Nat.eqb_refl. cbn.
    eexists; split; [reflexivity|]. unfold coalesced; cbn.
    repeat split; lia.
  - subst w_afs. cbn.
    eexists; split; [reflexivity|]. unfold coalesced; cbn.
    repeat split; lia.
Qed.

Lemma debounced_coalesced : preserves coalesced debounced.
Proof.
  intros w H. destruct (debounced_effect w H) as (w' & E & H' & _).
  now exists w'.
Qed.

(** A display frame runs the pending callback, if any: one [update()] on
    the page as it is at the frame. Nothing is pending afterwards. *)
Lemma animation_frame_effect dom w :
  coalesced w ->
  exists w',
    animation_frame dom w = Ok tt w'
    /\ coalesced w'
    /\ World.timeoutId w' = None
    /\ World.animationFrames w' = []
    /\ World.resizeListeners w' = World.resizeListeners w
    /\ match World.timeoutId w with
       | Some _ =>
           exists w1, update dom w = Ok tt w1 /\ page_state w' = page_state w1
       | None => page_state w' = page_state w
       end.
Proof.
  intros [Hn H]. unfold animation_frame, frame_callback.
  unfold bind at 1. unfold gets at 1. unfold bind at 1. unfold modify at 1.
  destruct (World.timeoutId w) as [h|] eqn:Ht.
  - destruct H as (Hafs & H1 & H2). rewrite Hafs. cbn [forEach].
    destruct (update_total dom (World.set_animationFrames [] w)) as (w1 & E1).
    destruct (update_total dom w) as (w2 & E2).
    pose proof (update_keeps_schedule dom _ tt w1 E1) as Hs.
    pose proof (update_keeps_listeners dom _ tt w1 E1) as Hl.
    assert (Hp : page_state w1 = page_state w2).
    { clear - E1 E2. open_world w. unfold update in *.
      unfold bind, gets in E1, E2. cbn in E1, E2.
      destruct w_pd as [[config state]|]; [|now inversion E1; inversion E2].
      destruct (State.isDestroyed state); [now inversion E1; inversion E2|].
      destruct (Js.le _ _).
      - destruct (State.styleElement state);
          inversion E1; inversion E2; reflexivity.
      - unfold _collectMarks, _buildGradient, _applyStyles, assign_state,
          destructure_privateData, bind, gets, modify, ret in E1, E2.
        cbn in E1, E2.
        destruct (State.styleElement state);
          inversion E1; inversion E2; reflexivity. }
    exists (World.set_timeoutId None w1). unfold bind. rewrite E1. cbn.
    split; [reflexivity|].
    destruct w1 as [pd1 els1 hd1 nn1 tid1 afs1 nh1 rl1 pf1].
    destruct w as [pd els hd nn tid afs nh rl pf].
    unfold schedule in Hs. cbn in *. injection Hs as -> -> ->.
    unfold coalesced; cbn. repeat split; try assumption.
    exists w2. split; [exact E2|]. exact Hp.
  - rewrite H. cbn [forEach]. eexists; split; [reflexivity|].
    destruct w as [pd els hd nn tid afs nh rl pf]. cbn in *. subst.
    unfold coalesced; cbn. repeat split; assumption.
Qed.

Lemma animation_frame_coalesced dom : preserves coalesced (animation_frame dom).
Proof.
  intros w H. destruct (animation_frame_effect dom w H) as (w' & E & H' & _).
  now exists w'.
Qed.

Lemma step_coalesced dom e : preserves coalesced (step dom e).
Proof.
  destruct e; cbn [step].
  - apply (preserves_of_keeps coalesced schedule).
    + apply coalesced_schedule.
    + intros w _. apply update_total.
    + apply update_keeps_schedule.
  - apply getters_preserve.
  - apply getters_preserve.
  - apply (preserves_of_keeps coalesced schedule).
    + apply coalesced_schedule.
    + intros w _. apply destroy_total.
    + apply destroy_keeps_schedule.
  - intros w H. unfold bind, gets.
    apply preserves_forEach; [|exact H]. intros _. apply debounced_coalesced.
  - intros w H. unfold bind, gets.
    destruct (World.privateData w) as [[c state]|]; [|now exists w].
    destruct (State.resizeObserver state) as [[|el l]|]; try (now exists w).
    now apply debounced_coalesced.
  - intros w H. unfold bind, gets.
    destruct (World.privateData w) as [[c state]|] eqn:Hpd; [|now exists w].
    destruct (State.mutationObserver state) as [[|]|]; try (now exists w).
    assert (Ha : alive w) by (unfold alive; congruence).
    assert (Hp : preserves (fun w => alive w /\ coalesced w)
                   (mutation_callback dom c mutations)).
    { unfold mutation_callback. apply preserves_when, preserves_bind.
      - intros w1 [Ha1 Hc1].
        destruct (observeElements_alive dom w1 Ha1) as (w2 & E & Ha2).
        exists w2. split; [exact E|]. split; [exact Ha2|].
        apply (coalesced_schedule w1 w2); [|exact Hc1].
        apply (observeElements_keeps schedule dom) with (b := tt); [|exact E].
        intros v [? ? ? ? ? ? ? ? ?]; reflexivity.
      - apply preserves_conj; [apply debounced_alive | apply debounced_coalesced]. }
    destruct (Hp w (conj Ha H)) as (w' & E & _ & H').
    now exists w'.
  - apply animation_frame_coalesced.
Qed.

(** X11. Recomputations are coalesced: on a page that starts without
    pending frames, whatever calls and notifications an instance receives,
    at most one animation frame is pending at any time, and [timeoutId] is
    its handle ([null] when none is pending). *)
Theorem at_most_one_frame_is_pending
    (p : Platform) (draw : list nat) (options : Options.t) (dom0 : Dom.t)
    (history : list (Dom.t * Event)) :
  exists w,
    (new_ScrollMarks draw options dom0 ;; run history) (World.initial p)
    = Ok tt w
    /\ (List.length (World.animationFrames w) <= 1)%nat
    /\ match World.timeoutId w with
       | Some h => World.animationFrames w = [h]
       | None => World.animationFrames w = []
       end.
Proof.
  destruct (new_ScrollMarks_effect draw options dom0 (World.initial p))
    as (w1 & E1 & _ & _ & _ & Hs & _).
  assert (H1 : coalesced w1).
  { unfold schedule in Hs. cbn in Hs. injection Hs as Ht Ha Hn.
    unfold coalesced. rewrite Ht, Ha, Hn. split; [lia | reflexivity]. }
  destruct (preserves_run coalesced history step_coalesced w1 H1)
    as (w & E & [_ H]).
  exists w. split; [unfold bind; now rewrite E1|].
  destruct (World.timeoutId w) as [h|].
  - destruct H as (-> & _). split; [cbn; lia | reflexivity].
  - rewrite H. split; [cbn; lia | reflexivity].
Qed.

Lemma update_respects_page dom wa wb wa' wb' :
  page_state wa = page_state wb ->
  update dom wa = Ok tt wa' -> update dom wb = Ok tt wb' ->
  page_state wa' = page_state wb'.
Proof.
  intros Hp Ea Eb.
  destruct wa as [pd els hd nn tid afs nh rl pf].
  destruct wb as [pdb elsb hdb nnb tidb afsb nhb rlb pfb].
  unfold page_state in Hp. cbn in Hp. injection Hp as <- <- <-.
  unfold update in *. unfold bind, gets in Ea, Eb. cbn in Ea, Eb.
  destruct pd as [[config state]|]; [|now inversion Ea; inversion Eb].
  destruct (State.isDestroyed state); [now inversion Ea; inversion Eb|].
  destruct (Js.le _ _).
  - destruct (State.styleElement state);
      inversion Ea; inversion Eb; reflexivity.
  - unfold _collectMarks, _buildGradient, _applyStyles, assign_state,
      destructure_privateData, bind, gets, modify, ret in Ea, Eb.
    cbn in Ea, Eb.
    destruct (State.styleElement state);
      inversion Ea; inversion Eb; reflexivity.
Qed.

Lemma run_app (a b : list (Dom.t * Event)) w :
  run (a ++ b) w = (run a ;; run b) w.
Proof.
  revert w. induction a as [|[d e] a IH]; intros w; cbn [run app].
  - reflexivity.
  - unfold bind. destruct (step d e w) as [[] w1|]; [|reflexivity].
    rewrite IH. reflexivity.
Qed.

Lemma resize_triggers w d :
  coalesced w ->
  World.resizeListeners w = [debounced_update] ->
  exists w',
    step d window_resize w = Ok tt w'
    /\ coalesced w'
    /\ World.resizeListeners w' = [debounced_update]
    /\ page_state w' = page_state w
    /\ World.timeoutId w' = Some (World.next_handle w).
Proof.
  intros Hc Hl. cbn [step]. unfold bind, gets. rewrite Hl. cbn [forEach].
  destruct (debounced_effect w Hc) as (w' & E & Hc' & Ht & _).
  exists w'. unfold bind. rewrite E. split; [reflexivity|].
  split; [exact Hc'|].
  split; [now rewrite (debounced_keeps_listeners w tt w' E)|].
  split; [exact (debounced_keeps_page w tt w' E) | exact Ht].
Qed.

Lemma burst_triggers doms : forall w,
  coalesced w ->
  World.resizeListeners w = [debounced_update] ->
  exists w',
    run (resize_burst doms) w = Ok tt w'
    /\ coalesced w'
    /\ page_state w' = page_state w
    /\ (doms <> [] -> World.timeoutId w' <> None).
Proof.
  induction doms as [|d doms IH]; intros w Hc Hl.
  - exists w. split; [reflexivity|]. split; [exact Hc|].
    split; [reflexivity|]. intros H. now elim H.
  - destruct (resize_triggers w d Hc Hl) as (w1 & E1 & Hc1 & Hl1 & Hp1 & Ht1).
    destruct (IH w1 Hc1 Hl1) as (w' & E & Hc' & Hp & Ht).
    exists w'. cbn [resize_burst map run]. unfold bind. rewrite E1.
    split; [exact E|]. split; [exact Hc'|].
    split; [congruence|]. intros _.
    destruct doms as [|d' doms']; [|apply Ht; discriminate].
    cbn in E. injection E as <-. congruence.
Qed.

(** X12. A burst collapses to one trailing recomputation: on an instance
    with its resize listener registered, any number (at least one) of resize
    notifications followed by a display frame leaves the page (private
    data, style elements, children of [document.head]) exactly as one
    [update()] on the page of that frame would, and nothing is pending
    afterwards. *)
Theorem burst_then_frame_is_one_update
    (w : World.t) (doms : list Dom.t) (dom : Dom.t) :
  coalesced w ->
  World.resizeListeners w = [debounced_update] ->
  doms <> [] ->
  exists w1 w2,
    run (resize_burst doms ++ [(dom, display_frame)]) w = Ok tt w1
    /\ update dom w = Ok tt w2
    /\ page_state w1 = page_state w2
    /\ World.animationFrames w1 = []
    /\ World.timeoutId w1 = None.
Proof.
  intros Hc Hl Hne.
  destruct (burst_triggers doms w Hc Hl) as (wb & Eb & Hcb & Hpb & Htb).
  specialize (Htb Hne).
  destruct (animation_frame_effect dom wb Hcb)
    as (w1 & E1 & _ & Ht1 & Ha1 & _ & Heff).
  destruct (World.timeoutId wb) as [h|]; [|congruence].
  destruct Heff as (wu & Eu & Hpu).
  destruct (update_total dom w) as (w2 & E2).
  exists w1, w2. rewrite run_app. unfold bind at 1. rewrite Eb.
  cbn [run step]. unfold bind. rewrite E1.
  split; [reflexivity|]. split; [exact E2|].
  split; [|split; assumption].
  rewrite Hpu. exact (update_respects_page dom wb w wu w2 Hpb Eu E2).
Qed.

Lemma burst_then_frame_is_one_update_witness :
  exists w w1 w2,
    new_ScrollMarks Sample.draw Options.empty Sample.one_mark Sample.browser
    = Ok tt w
    /\ coalesced w
    /\ World.resizeListeners w = [debounced_update]
    /\ [Sample.one_mark; Sample.flat] <> []
    /\ run (resize_burst [Sample.one_mark; Sample.flat]
            ++ [(Sample.nested, display_frame)]) w = Ok tt w1
    /\ update Sample.nested w = Ok tt w2
    /\ page_state w1 = page_state w2.
Proof.
  destruct (new_ScrollMarks_effect Sample.draw Options.empty Sample.one_mark
              Sample.browser) as (w & E & _ & _ & _ & Hs & Hl & _).
  assert (Hc : coalesced w).
  { unfold schedule in Hs. cbn in Hs. injection Hs as Ht Ha Hn.
    unfold coalesced. rewrite Ht, Ha, Hn. split; [lia | reflexivity]. }
  assert (Hne : [Sample.one_mark; Sample.flat] <> []) by discriminate.
  destruct (burst_then_frame_is_one_update w [Sample.one_mark; Sample.flat]
              Sample.nested Hc Hl Hne) as (w1 & w2 & E1 & E2 & Hp & _).
  exists w, w1, w2.
  split; [exact E|]. split; [exact Hc|]. split; [exact Hl|].
  split; [exact Hne|]. split; [exact E1|]. split; [exact E2 | exact Hp].
Defined.

(** ** [destroy] detaches the instance *)













(** ** The mutation observer *)

Lemma relevant_mutation_iff config mutations :
  existsb
    (fun m =>
       match mutation_type m with
       | childList => true
       | attributes =>
           match mutation_attributeName m with
           | Some a => String.eqb a (Config.attributeName config)
           | None => false
           end
       | characterData => false
       end)
    mutations = true
  <-> Exists (relevant_mutation config) mutations.
Proof.
  rewrite existsb_exists, Exists_exists.
  split; intros (m & Hm & H); exists m; (split; [exact Hm|]).
  - unfold relevant_mutation. destruct (mutation_type m); [now left| |discriminate].
    right. split; [reflexivity|].
    destruct (mutation_attributeName m); [|discriminate].
    apply String.eqb_eq in H. now subst.
  - destruct H as [-> | [-> ->]]; [reflexivity|]. apply String.eqb_refl.
Qed.

(** X14. A mutation notification recomputes nothing by itself. When none
    of its records is a change of the child list or of the color attribute,
    it leaves the world as it is. Otherwise it requests one animation frame,
    which replaces the pending one, and touches neither the style elements,
    the children of [document.head] nor the marks. *)
Theorem mutations_only_schedule
    (dom : Dom.t) (config : Config.t) (state : State.t)
    (mutations : list MutationRecord) (w : World.t) :
  World.privateData w = Some (config, state) ->
  State.mutationObserver state = Some true ->
  coalesced w ->
  (~ Exists (relevant_mutation config) mutations ->
   step dom (observed_mutations mutations) w = Ok tt w)
  /\ (Exists (relevant_mutation config) mutations ->
      exists w',
        step dom (observed_mutations mutations) w = Ok tt w'
        /\ World.animationFrames w' = [World.next_handle w]
        /\ World.elements w' = World.elements w
        /\ World.head w' = World.head w
        /\ value_of (getMarks w') = value_of (getMarks w)).
Proof.
  intros Hpd Hmo Hc.
  assert (Es : step dom (observed_mutations mutations) w
               = mutation_callback dom config mutations w).
  { cbn [step]. unfold bind, gets. now rewrite Hpd, Hmo. }
  rewrite Es. clear Es. unfold mutation_callback.
  pose proof (relevant_mutation_iff config mutations) as Hiff.
  destruct (existsb _ mutations).
  - split; [intros Hn; elim Hn; now apply Hiff|]. intros _. cbn [when].
    assert (Ha : alive w) by (unfold alive; congruence).
    destruct (observeElements_alive dom w Ha) as (w1 & E1 & _).
    pose proof (observeElements_keeps_outside dom w tt w1 E1) as Ho.
    assert (Hc1 : coalesced w1).
    { apply (coalesced_schedule w w1); [|exact Hc].
      unfold outside_observers, schedule in Ho |- *.
      injection Ho. intros. congruence. }
    destruct (debounced_effect w1 Hc1) as (w' & E & _ & _ & Hf).
    pose proof (debounced_keeps_page w1 tt w' E) as Hp.
    exists w'. unfold bind. rewrite E1. split; [exact E|].
    unfold outside_observers, schedule in Ho. unfold page_state in Hp.
    injection Ho as Hels Hhd _ _ Hnh _ _ Hst. injection Hp as Hpd' Hels' Hhd'.
    rewrite Hf, Hnh, Hels', Hels, Hhd', Hhd. repeat split.
    unfold getMarks, bind, gets. rewrite Hpd'.
    destruct (World.privateData w1) as [[c1 s1]|],
      (World.privateData w) as [[c0 s0]|]; cbn in Hst |- *;
      try discriminate; try reflexivity.
    injection Hst. intros. congruence.
  - split; [reflexivity|]. intros H. apply Hiff in H. discriminate.
Qed.

Lemma mutations_only_schedule_witness :
  exists state,
    World.privateData Sample.started = Some (Sample.config, state)
    /\ State.mutationObserver state = Some true
    /\ coalesced Sample.started
    /\ ~ Exists (relevant_mutation Sample.config) Sample.other_mutations
    /\ step Sample.nested (observed_mutations Sample.other_mutations)
         Sample.started
       = Ok tt Sample.started.
Proof.
  eexists. split; [vm_compute; reflexivity|]. split; [reflexivity|].
  assert (Hc : coalesced Sample.started).
  { split; [vm_compute; constructor | reflexivity]. }
  split; [exact Hc|].
  assert (Hn : ~ Exists (relevant_mutation Sample.config) Sample.other_mutations).
  { intros H. apply Exists_exists in H. destruct H as (m & Hm & H).
    destruct Hm as [<- | [<- | []]]; destruct H as [H | [H1 H2]];
      cbn in *; discriminate. }
  split; [exact Hn|].
  refine (proj1 (mutations_only_schedule Sample.nested Sample.config _
                   Sample.other_mutations Sample.started _ _ Hc) Hn).
  - vm_compute. reflexivity.
  - reflexivity.
Defined.

(* ================================================================= *)
(** * Auto-discovery *)

Lemma truthy_inject_Z (z : Z) :
  Js.truthy (inject_Z z) = negb (z =? 0)%Z.
Proof.
  unfold Js.truthy, Js.truthy_number, Qeq_bool, inject_Z. cbn.
  rewrite Z.mul_1_r. reflexivity.
Qed.

Lemma auto_options_width body :
  Options.scrollbarWidth (auto_options body) ||| 14 = auto_width body.
Proof.
  unfold auto_options, auto_width; cbn.
  destruct (Element.lookup "data-scrollmarks-width" body) as [s|];
    [|reflexivity].
  destruct s as [|c s]; [reflexivity|].
  cbn [Js.truthy Js.truthy_option Js.truthy_string].
  destruct (parseInt (String c s)) as [z|]; [|reflexivity].
  unfold Js.or_else; cbn [option_map]. rewrite truthy_inject_Z.
  now destruct (z =? 0)%Z.
Qed.

(** X15. [autoInit()] builds nothing, and changes nothing, unless
    [document.body] exists and carries [data-scrollmarks-auto]. When it
    does, an instance is built whose selector, attribute name and container
    are always the defaults; its track and thumb colors are the attributes
    [data-scrollmarks-track] and [data-scrollmarks-thumb] when these are
    present and not empty; and its width is the integer that
    [data-scrollmarks-width] starts with, or 14 when the attribute is
    absent, empty, does not start with an integer, or gives 0. The width
    is stated for the integers a number holds exactly, up to 2^53. *)
Theorem autoInit_reads_the_body
    (draw : list nat) (body : option (list (string * string))) (dom : Dom.t)
    (w : World.t) :
  ((body = None
    \/ exists attrs,
         body = Some attrs
         /\ Element.lookup "data-scrollmarks-auto" attrs = None) ->
   autoInit draw body dom w = Ok false w)
  /\ (forall attrs v,
        body = Some attrs ->
        Element.lookup "data-scrollmarks-auto" attrs = Some v ->
        exists w' config state,
          autoInit draw body dom w = Ok true w'
          /\ World.privateData w' = Some (config, state)
          /\ State.id state = generateId draw
          /\ Config.container config = documentElement
          /\ Config.selector config = "[data-scroll-color]"
          /\ Config.attributeName config = "data-scroll-color"
          /\ Config.trackColor config
             = Element.lookup "data-scrollmarks-track" attrs ||| "#1a1a2e"
          /\ Config.thumbColor config
             = Element.lookup "data-scrollmarks-thumb" attrs
               ||| "rgba(255,255,255,0.3)"
          /\ (exact_width attrs = true ->
              Config.scrollbarWidth config = auto_width attrs)).
Proof.
  split.
  - intros [-> | (attrs & -> & H)]; cbn; [reflexivity|]. now rewrite H.
  - intros attrs v -> H. cbn. rewrite H.
    destruct (new_ScrollMarks_active draw (auto_options attrs) dom w)
      as (w' & E & state & Hpd & _ & _ & Hid).
    exists w', (make_config (auto_options attrs)), state.
    unfold bind. rewrite E. split; [reflexivity|]. split; [exact Hpd|].
    split; [exact Hid|].
    unfold make_config; cbn [Config.container Config.selector
      Config.attributeName Config.trackColor Config.thumbColor
      Config.scrollbarWidth].
    repeat split. intros _. apply auto_options_width.
Qed.

Lemma autoInit_reads_the_body_witness :
  exact_width Sample.auto_body = true
  /\ exists w' config state,
       autoInit Sample.draw (Some Sample.auto_body) Sample.one_mark
         Sample.browser
       = Ok true w'
       /\ World.privateData w' = Some (config, state)
       /\ Config.trackColor config = "#123456"
       /\ Config.thumbColor config = "rgba(255,255,255,0.3)"
       /\ Config.scrollbarWidth config = 20.
Proof.
  split; [reflexivity|].
  destruct (proj2 (autoInit_reads_the_body Sample.draw (Some Sample.auto_body)
                     Sample.one_mark Sample.browser)
              Sample.auto_body "" eq_refl eq_refl)
    as (w' & config & state & E & Hpd & _ & _ & _ & _ & Ht & Hh & Hw).
  exists w', config, state.
  split; [exact E|]. split; [exact Hpd|].
  split; [exact Ht|]. split; [exact Hh | exact (Hw eq_refl)].
Defined.
